(** * QQ group member insight: key derivation, decryption pipeline, ETL and
      social-graph queries of [app.py], embedded in Rocq.

    The development follows the layout of the program: Python primitives
    the code relies on ([bytes] repr, slices, [str]), [hashlib.md5], the
    [Pipeline] class, the JSON import route and the analysis queries.
    Definitions come first; the lemmas and theorems follow. *)

From Stdlib Require Import ZArith List String Ascii Lia.
From Stdlib Require Import Strings.Byte DecimalString.
From stdpp Require Import gmap strings sorting.

Import ListNotations.
Local Open Scope Z_scope.

(* ===================================================================== *)
(** * Part I: definitions                                                 *)
(* ===================================================================== *)

(** ** Python values and exceptions *)

(** A Python [str] is represented by its UTF-8 encoding (a [string] of
    bytes), so [s.encode('utf-8')] is the byte list of the representation
    and [+] on [str] is [+:+]. A [bytes] object is a [list byte]. *)

Inductive exn_class :=
  | FileNotFoundError
  | PermissionError
  | OperationalError
  | IntegrityError
  | InterfaceError
  | OverflowError
  | AttributeError
  | CalledProcessError
  | HTTPException
  | Exception.

(** An exception is its class, the [stderr] attribute where the class has
    one ([CalledProcessError]) and [str(e)]. *)
Record exn := mk_exn {
  exn_cls : exn_class;
  exn_stderr : option string;
  exn_str : string
}.

Inductive result (A : Type) :=
  | Ok (a : A)
  | Raise (e : exn).
Arguments Ok {A} a.
Arguments Raise {A} e.

#[global] Instance result_ret : MRet result := fun _ a => Ok a.

#[global] Instance result_bind : MBind result := fun _ _ k r =>
  match r with
  | Ok a => k a
  | Raise e => Raise e
  end.

#[global] Instance exn_class_eq_dec : EqDecision exn_class.
Proof. solve_decision. Defined.

Module Py.

(** [bytes(s, 'utf-8')] and back, on the representation. *)
Definition encode_utf8 (s : string) : list byte := list_byte_of_string s.

Definition byte_val (b : byte) : Z := Z.of_N (Byte.to_N b).

Definition hexdigits : list ascii :=
  ["0"; "1"; "2"; "3"; "4"; "5"; "6"; "7";
   "8"; "9"; "a"; "b"; "c"; "d"; "e"; "f"]%char.

Definition hexdigit (n : Z) : ascii := nth (Z.to_nat n) hexdigits "0"%char.

Definition char1 (a : ascii) : string := String a EmptyString.

(** Two lowercase hex digits of a value in [0, 256). *)
Definition hex2 (v : Z) : string :=
  String (hexdigit (Z.land (Z.shiftr v 4) 15))
    (String (hexdigit (Z.land v 15)) EmptyString).

(** One byte of [repr(bytes)], as in CPython's [PyBytes_Repr]; [quote]
    and the tests are on the byte's value (39 is the single quote, 34
    the double quote, 92 the backslash). *)
Definition repr_byte (quote : Z) (c : byte) : string :=
  let v := byte_val c in
  if (v =? quote) || (v =? 92) then
    String "\"%char (char1 (ascii_of_byte c))
  else if v =? 9 then "\t"
  else if v =? 10 then "\n"
  else if v =? 13 then "\r"
  else if (v <? 32) || (127 <=? v) then "\x" +:+ hex2 v
  else char1 (ascii_of_byte c).

Definition has_byte (v : Z) (bs : list byte) : bool :=
  existsb (fun b => byte_val b =? v) bs.

(** The quote [repr] picks: a double quote only when the data holds a
    single quote and no double quote. *)
Definition repr_quote (bs : list byte) : Z :=
  if has_byte 39 bs && negb (has_byte 34 bs) then 34 else 39.

Definition repr_body (bs : list byte) : string :=
  let q := repr_quote bs in
  fold_right (fun c acc => repr_byte q c +:+ acc) EmptyString bs.

(** [str(bs)] for a [bytes] object: [b'...'] or [b"..."]. *)
Definition str_bytes (bs : list byte) : string :=
  let q := char1 (ascii_of_N (Z.to_N (repr_quote bs))) in
  "b" +:+ q +:+ repr_body bs +:+ q.

(** [s[start:-stop_back]] for a string, with Python's clamping. *)
Definition slice_from_to_back (start stop_back : nat) (s : string) : string :=
  let n := String.length s in
  String.substring start (n - stop_back - start) s.

(** [bs[-k:]] on a list: the last [min k (len bs)] items. *)
Definition last_items {A} (k : nat) (l : list A) : list A :=
  drop (length l - k) l.

(** The line feed, which a string literal cannot spell. *)
Definition nl : string := char1 (ascii_of_N 10).

(** [s.replace(a, b)] for single characters. *)
Fixpoint replace_char (a b : ascii) (s : string) : string :=
  match s with
  | EmptyString => EmptyString
  | String c s' =>
      String (if Ascii.eqb c a then b else c) (replace_char a b s')
  end.

(** [str(z)] for a Python [int]. *)
Definition str_int (z : Z) : string := NilZero.string_of_int (Z.to_int z).

End Py.

(** ** [hashlib.md5] (RFC 1321) on 32-bit words held in [Z] *)

Module MD5.

Definition mask32 : Z := 0xffffffff.
Definition add32 (x y : Z) : Z := Z.land (x + y) mask32.
Definition not32 (x : Z) : Z := Z.lxor x mask32.
Definition rotl32 (x c : Z) : Z :=
  Z.lor (Z.land (Z.shiftl x c) mask32) (Z.shiftr x (32 - c)).

Definition S : list Z :=
  [7; 12; 17; 22; 7; 12; 17; 22; 7; 12; 17; 22; 7; 12; 17; 22;
   5; 9; 14; 20; 5; 9; 14; 20; 5; 9; 14; 20; 5; 9; 14; 20;
   4; 11; 16; 23; 4; 11; 16; 23; 4; 11; 16; 23; 4; 11; 16; 23;
   6; 10; 15; 21; 6; 10; 15; 21; 6; 10; 15; 21; 6; 10; 15; 21].

Definition K : list Z :=
  [0xd76aa478; 0xe8c7b756; 0x242070db; 0xc1bdceee;
   0xf57c0faf; 0x4787c62a; 0xa8304613; 0xfd469501;
   0x698098d8; 0x8b44f7af; 0xffff5bb1; 0x895cd7be;
   0x6b901122; 0xfd987193; 0xa679438e; 0x49b40821;
   0xf61e2562; 0xc040b340; 0x265e5a51; 0xe9b6c7aa;
   0xd62f105d; 0x02441453; 0xd8a1e681; 0xe7d3fbc8;
   0x21e1cde6; 0xc33707d6; 0xf4d50d87; 0x455a14ed;
   0xa9e3e905; 0xfcefa3f8; 0x676f02d9; 0x8d2a4c8a;
   0xfffa3942; 0x8771f681; 0x6d9d6122; 0xfde5380c;
   0xa4beea44; 0x4bdecfa9; 0xf6bb4b60; 0xbebfbc70;
   0x289b7ec6; 0xeaa127fa; 0xd4ef3085; 0x04881d05;
   0xd9d4d039; 0xe6db99e5; 0x1fa27cf8; 0xc4ac5665;
   0xf4292244; 0x432aff97; 0xab9423a7; 0xfc93a039;
   0x655b59c3; 0x8f0ccc92; 0xffeff47d; 0x85845dd1;
   0x6fa87e4f; 0xfe2ce6e0; 0xa3014314; 0x4e0811a1;
   0xf7537e82; 0xbd3af235; 0x2ad7d2bb; 0xeb86d391].

Record state := mk_state { sa : Z; sb : Z; sc : Z; sd : Z }.

Definition init : state :=
  mk_state 0x67452301 0xefcdab89 0x98badcfe 0x10325476.

(** Little-endian word of four bytes. *)
Definition word_le (bs : list byte) : Z :=
  fold_right (fun b acc => Py.byte_val b + 256 * acc) 0 bs.

Fixpoint words (n : nat) (bs : list byte) : list Z :=
  match n with
  | O => []
  | Datatypes.S n' => word_le (take 4 bs) :: words n' (drop 4 bs)
  end.

Definition step (M : list Z) (st : state) (i : Z) : state :=
  let '(mk_state a b c d) := st in
  let '(f, g) :=
    if i <? 16 then (Z.lor (Z.land b c) (Z.land (not32 b) d), i)
    else if i <? 32 then
      (Z.lor (Z.land d b) (Z.land (not32 d) c), (5 * i + 1) mod 16)
    else if i <? 48 then (Z.lxor (Z.lxor b c) d, (3 * i + 5) mod 16)
    else (Z.lxor c (Z.lor b (not32 d)), (7 * i) mod 16) in
  let f' := add32 (add32 (add32 f a) (nth (Z.to_nat i) K 0))
                  (nth (Z.to_nat g) M 0) in
  mk_state d (add32 b (rotl32 f' (nth (Z.to_nat i) S 0))) b c.

Definition rounds : list Z := map Z.of_nat (seq 0 64).

Definition compress (st : state) (block : list byte) : state :=
  let M := words 16 block in
  let st' := fold_left (step M) rounds st in
  mk_state (add32 (sa st) (sa st')) (add32 (sb st) (sb st'))
           (add32 (sc st) (sc st')) (add32 (sd st) (sd st')).

Definition byte_of_Z (z : Z) : byte :=
  match Byte.of_N (Z.to_N (z mod 256)) with
  | Some b => b
  | None => x00
  end.

Fixpoint bytes_le (n : nat) (z : Z) : list byte :=
  match n with
  | O => []
  | Datatypes.S n' => byte_of_Z z :: bytes_le n' (Z.shiftr z 8)
  end.

Definition pad (msg : list byte) : list byte :=
  let n := length msg in
  msg ++ [x80] ++ replicate ((119 - n mod 64) mod 64)%nat x00
      ++ bytes_le 8 (8 * Z.of_nat n).

(** Feed the padded message block by block; [fuel] bounds the number
    of blocks. *)
Fixpoint blocks (fuel : nat) (st : state) (bs : list byte) : state :=
  match fuel, bs with
  | O, _ => st
  | _, [] => st
  | Datatypes.S fuel', _ => blocks fuel' (compress st (take 64 bs)) (drop 64 bs)
  end.

Definition digest_state (msg : list byte) : state :=
  let p := pad msg in
  blocks (length p) init p.

Definition digest (msg : list byte) : list byte :=
  let st := digest_state msg in
  bytes_le 4 (sa st) ++ bytes_le 4 (sb st)
    ++ bytes_le 4 (sc st) ++ bytes_le 4 (sd st).

Definition hexdigest (msg : list byte) : string :=
  fold_right (fun b acc => Py.hex2 (Py.byte_val b) +:+ acc) EmptyString
    (digest msg).

End MD5.

(** [md5(input_string)]: hex digest of the UTF-8 encoding. *)
Definition md5 (input_string : string) : string :=
  let data_to_hash := Py.encode_utf8 input_string in
  MD5.hexdigest data_to_hash.

(** ** Values of the two databases and of the JSON payload *)

(** A cell of a SQLite row as the driver hands it to Python: [None], an
    [int], a [str] or a [bytes] object. Floating-point cells are outside
    the model. *)
Inductive sqlval :=
  | SqlNull
  | SqlInt (z : Z)
  | SqlText (s : string)
  | SqlBlob (b : list byte).

(** [str(v)] *)
Definition py_str (v : sqlval) : string :=
  match v with
  | SqlNull => "None"
  | SqlInt z => Py.str_int z
  | SqlText s => s
  | SqlBlob b => Py.str_bytes b
  end.

(** Truth value of [v] in a conditional. *)
Definition truthy (v : sqlval) : bool :=
  match v with
  | SqlNull => false
  | SqlInt z => negb (z =? 0)
  | SqlText s => negb (String.eqb s "")
  | SqlBlob b => match b with [] => false | _ :: _ => true end
  end.

Definition is_None (v : sqlval) : bool :=
  match v with SqlNull => true | _ => false end.

(** The result of [json.loads]: a [dict] keeps its items in insertion
    order and its keys are distinct. Numbers with a fraction or an
    exponent are outside the model. *)
#[local] Unset Elimination Schemes.
Inductive json :=
  | JNull
  | JBool (b : bool)
  | JInt (z : Z)
  | JStr (s : string)
  | JList (l : list json)
  | JDict (d : list (string * json)).
#[local] Set Elimination Schemes.

(** ** The analysis schema (Analysis DB) *)

Module Group.
Record t := mk { group_id : string; group_name : sqlval }.
End Group.

Module Member.
Record t := mk {
  group_id : string;
  user_id : string;
  user_name : sqlval;
  user_group_name : sqlval
}.
End Member.

(** The two tables by primary key: [groups] by [group_id], [members] by
    [(group_id, user_id)] with the pair [(user_name, user_group_name)]. *)
Record analysis_db := mk_db {
  groups : gmap string sqlval;
  members : gmap (string * string) (sqlval * sqlval)
}.

Definition empty_db : analysis_db := mk_db ∅ ∅.

(** Every column of the schema is a [String] column, which SQLite
    declares with TEXT affinity: an integer is stored as its decimal
    text. *)
Definition text_affinity (v : sqlval) : sqlval :=
  match v with
  | SqlInt z => SqlText (Py.str_int z)
  | _ => v
  end.

(** [session.query(Member).delete()] and [session.query(Group).delete()] *)
Definition query_delete_members (session : analysis_db) : analysis_db :=
  mk_db (groups session) ∅.

Definition query_delete_groups (session : analysis_db) : analysis_db :=
  mk_db ∅ (members session).

(** [session.merge(obj)]: insert, or overwrite the row with that key. *)
Definition merge_group (g : Group.t) (session : analysis_db) : analysis_db :=
  mk_db (<[Group.group_id g := text_affinity (Group.group_name g)]>
           (groups session))
        (members session).

Definition member_key (m : Member.t) : string * string :=
  (Member.group_id m, Member.user_id m).

Definition member_cells (m : Member.t) : sqlval * sqlval :=
  (text_affinity (Member.user_name m),
   text_affinity (Member.user_group_name m)).

Definition merge_member (m : Member.t) (session : analysis_db) : analysis_db :=
  mk_db (groups session)
        (<[member_key m := member_cells m]> (members session)).

(** [session.bulk_save_objects(batch)]: plain INSERTs; a key that is
    already stored violates the primary key. *)
Fixpoint bulk_save_objects (batch : list Member.t) (session : analysis_db)
  : result analysis_db :=
  match batch with
  | [] => Ok session
  | m :: batch' =>
      match members session !! member_key m with
      | Some _ =>
          Raise (mk_exn IntegrityError None
                   "UNIQUE constraint failed: members.group_id, members.user_id")
      | None => bulk_save_objects batch' (merge_member m session)
      end
  end.

(** The rows of [members], one [Member] per stored key. *)
Definition member_rows (db : analysis_db) : list Member.t :=
  map (fun '((g, u), (n, k)) => Member.mk g u n k) (map_to_list (members db)).

(** The decrypted source database: its two tables, [None] when the
    table is missing. *)
Record source_db := mk_source {
  group_list : option (list (list sqlval));
  group_member3 : option (list (list sqlval))
}.

(** ** The file system and the processes the pipeline talks to *)

(** Regular files, one entry per file under the path text that
    identifies it. Opening a missing path for reading raises
    [FileNotFoundError]; opening for writing creates or truncates. *)
Definition open_rb (files : gmap string (list byte)) (path : string)
  : result (list byte) :=
  match files !! path with
  | Some data => Ok data
  | None =>
      Raise (mk_exn FileNotFoundError None
               ("[Errno 2] No such file or directory: '" +:+ path +:+ "'"))
  end.

Definition write_wb (files : gmap string (list byte)) (path : string)
    (data : list byte) : gmap string (list byte) :=
  <[path := data]> files.

(** What [decrypt_db] can observe and change: which paths exist, the
    lines printed, and the child processes started (argv and stdin). *)
Record world := mk_world {
  existing : gset string;
  printed : list string;
  spawned : list (list string * string)
}.

(** The surroundings of one [decrypt_db] call. [subprocess_run argv input]
    is [subprocess.run(argv, input=input, text=True, check=True, ...)]: it
    raises [FileNotFoundError] when the executable is missing and
    [CalledProcessError] on a non-zero exit status. *)
Record environment := mk_environment {
  platform : string;
  sqlcipher : bool;
  sqlcipher_connect_plain : string -> result unit;
  sqlcipher_export : string -> string -> string -> result unit;
  subprocess_run : list string -> string -> result unit
}.

Definition print (line : string) (w : world) : world :=
  mk_world (existing w) (printed w ++ [line]) (spawned w).

Definition spawn (argv : list string) (input : string) (w : world) : world :=
  mk_world (existing w) (printed w) (spawned w ++ [(argv, input)]).

(** [if os.path.exists(p): os.remove(p)] *)
Definition remove_if_exists (p : string) (w : world) : world :=
  if decide (p ∈ existing w)
  then mk_world (existing w ∖ {[p]}) (printed w) (spawned w)
  else w.

Definition create_file (p : string) (w : world) : world :=
  mk_world ({[p]} ∪ existing w) (printed w) (spawned w).

Module Pipeline.

Definition get_key (files : gmap string (list byte))
    (nt_uid db_file_path : string) : result string :=
  data ← open_rb files db_file_path;
  let header_chunk := take 54 data in
  let seed_bytes := Py.last_items 8 header_chunk in
  let seed_str := Py.slice_from_to_back 2 1 (Py.str_bytes seed_bytes) in
  let uid_hash := md5 nt_uid in
  let final_key := md5 (uid_hash +:+ seed_str) in
  mret final_key.

Definition remove_header (files : gmap string (list byte))
    (source_path dest_path : string) : result (gmap string (list byte)) :=
  contents ← open_rb files source_path;
  let data := drop 1024 contents in
  mret (write_wb files dest_path data).

(** The candidate loop of [_find_sqlcipher_binary]: a candidate that
    is missing or exits with an error is skipped, any other exception
    propagates. *)
Fixpoint probe_candidates (env : environment) (candidates : list string)
    (w : world) : world * result (option string) :=
  match candidates with
  | [] => (w, Ok None)
  | cmd :: rest =>
      let input := ".quit" +:+ Py.nl in
      let w' := spawn [cmd] input w in
      match subprocess_run env [cmd] input with
      | Ok _ => (w', Ok (Some cmd))
      | Raise e =>
          if bool_decide (exn_cls e = FileNotFoundError
                          \/ exn_cls e = CalledProcessError)
          then probe_candidates env rest w'
          else (w', Raise e)
      end
  end.

Definition candidates (env : environment) : list string :=
  let candidates := ["sqlcipher"; "sqlcipher-x64"; "sqlcipher-x86"]%string in
  if String.eqb (platform env) "win32"
  then map (fun c => c +:+ ".exe") candidates
  else candidates.

Definition _find_sqlcipher_binary (env : environment) (w : world)
  : world * result (option string) :=
  probe_candidates env (candidates env) w.

Definition sql_script (key safe_decrypted_path : string) : string :=
  let indent := "                "%string in
  Py.nl
  +:+ indent +:+ "PRAGMA key = '" +:+ key +:+ "';" +:+ Py.nl
  +:+ indent +:+ "PRAGMA cipher_page_size = 4096;" +:+ Py.nl
  +:+ indent +:+ "PRAGMA kdf_iter = 4000;" +:+ Py.nl
  +:+ indent +:+ "PRAGMA cipher_hmac_algorithm = HMAC_SHA1;" +:+ Py.nl
  +:+ indent +:+ "PRAGMA cipher_default_kdf_algorithm = PBKDF2_HMAC_SHA512;"
  +:+ Py.nl
  +:+ indent +:+ "PRAGMA cipher = 'aes-256-cbc';" +:+ Py.nl
  +:+ indent +:+ "ATTACH DATABASE '" +:+ safe_decrypted_path
  +:+ "' AS plaintext KEY '';" +:+ Py.nl
  +:+ indent +:+ "SELECT sqlcipher_export('plaintext');" +:+ Py.nl
  +:+ indent +:+ "DETACH DATABASE plaintext;" +:+ Py.nl
  +:+ "            ".

Definition error_detail : string :=
  "无法解密数据库。后端未检测到 pysqlcipher3 库，也未在 PATH 中找到 sqlcipher/sqlcipher-x64/sqlcipher-x86 可执行文件。"
  +:+ Py.nl
  +:+ "请参照项目 GitHub 页面配置环境，或者访问 https://docs.aaqwq.top/decrypt/decode_db.html "
  +:+ "手动获取 group_info.decrypted.db 后使用「阶段3」导入。".

(** Strategy 1, the [pysqlcipher3] binding. [None] means that control
    falls through to strategy 2; [Some r] that the call ends with [r].
    The first [connect] / [close] pair on the output path is outside
    the [try]; the export sequence is inside it. *)
Definition decrypt_with_library (env : environment)
    (encrypted_path decrypted_path key : string) (w : world)
  : world * option (result unit) :=
  if sqlcipher env then
    let w := print "[Info] 使用 pysqlcipher3 进行解密" w in
    let w := remove_if_exists decrypted_path w in
    match sqlcipher_connect_plain env decrypted_path with
    | Raise e => (w, Some (Raise e))
    | Ok _ =>
        let w := create_file decrypted_path w in
        match sqlcipher_export env encrypted_path decrypted_path key with
        | Ok _ => (w, Some (Ok tt))
        | Raise e =>
            (print ("[Warn] pysqlcipher3 解密失败，尝试命令行 fallback: "
                    +:+ exn_str e) w, None)
        end
    end
  else (w, None).

(** Strategy 2, the command-line shell. *)
Definition decrypt_with_cli (env : environment)
    (encrypted_path decrypted_path key : string) (w : world)
  : world * result unit :=
  let '(w, found) := _find_sqlcipher_binary env w in
  match found with
  | Raise e => (w, Raise e)
  | Ok (Some cmd_tool) =>
      let w := print ("[Info] 使用命令行工具 " +:+ cmd_tool +:+ " 进行解密") w in
      let w := remove_if_exists decrypted_path w in
      let safe_decrypted_path :=
        Py.replace_char "\"%char "/"%char decrypted_path in
      let script := sql_script key safe_decrypted_path in
      let w := spawn [cmd_tool; encrypted_path] script w in
      match subprocess_run env [cmd_tool; encrypted_path] script with
      | Ok _ => (create_file decrypted_path w, Ok tt)
      | Raise e =>
          if bool_decide (exn_cls e = CalledProcessError) then
            let err_msg :=
              match exn_stderr e with
              | Some (String c t) => String c t
              | _ => exn_str e
              end in
            (w, Raise (mk_exn Exception None
                         ("命令行 sqlcipher 执行出错: " +:+ err_msg)))
          else (w, Raise e)
      end
  | Ok None => (w, Raise (mk_exn Exception None error_detail))
  end.

Definition decrypt_db (env : environment)
    (encrypted_path decrypted_path key : string) (w : world)
  : world * result unit :=
  match decrypt_with_library env encrypted_path decrypted_path key w with
  | (w, Some r) => (w, r)
  | (w, None) => decrypt_with_cli env encrypted_path decrypted_path key w
  end.


(** [SELECT * FROM table] followed by [fetchall()]. *)
Definition fetchall (table : option (list (list sqlval))) (name : string)
  : result (list (list sqlval)) :=
  match table with
  | Some rows => Ok rows
  | None => Raise (mk_exn OperationalError None ("no such table: " +:+ name))
  end.

Definition col (i : nat) (row : list sqlval) : sqlval := nth i row SqlNull.

Definition migrate_groups (group_rows : list (list sqlval))
    (session : analysis_db) : analysis_db :=
  fold_left
    (fun session row =>
       if (5 <? length row)%nat then
         merge_group
           (Group.mk (py_str (col 0 row)) (SqlText (py_str (col 5 row))))
           session
       else session)
    group_rows session.

Definition BATCH_SIZE : Z := 5000.

(** The member loop, with the pending [batch] as an accumulator; it
    returns the batch left over when the rows are exhausted. *)
Fixpoint migrate_members (target_qq_id : string)
    (member_rows : list (list sqlval)) (batch : list Member.t)
    (session : analysis_db) : result (list Member.t * analysis_db) :=
  match member_rows with
  | [] => Ok (batch, session)
  | row :: rest =>
      if (length row <=? 5)%nat || is_None (col 2 row) || is_None (col 5 row)
      then migrate_members target_qq_id rest batch session
      else
        let g_nick := col 0 row in
        let u_name := col 1 row in
        let g_id := py_str (col 2 row) in
        let u_id := py_str (col 5 row) in
        if String.eqb u_id target_qq_id
        then migrate_members target_qq_id rest batch session
        else
          let final_nick := if truthy g_nick then g_nick else u_name in
          let batch := batch ++ [Member.mk g_id u_id u_name final_nick] in
          if BATCH_SIZE <=? Z.of_nat (length batch) then
            session ← bulk_save_objects batch session;
            migrate_members target_qq_id rest [] session
          else migrate_members target_qq_id rest batch session
  end.

(** The body of the [try] block, up to [session.commit()]. *)
Definition clean_data_transaction (source : source_db)
    (target_qq_id : string) (session : analysis_db) : result analysis_db :=
  let session := query_delete_members session in
  let session := query_delete_groups session in
  group_rows ← fetchall (group_list source) "group_list";
  let session := migrate_groups group_rows session in
  member_rows ← fetchall (group_member3 source) "group_member3";
  '(batch, session) ← migrate_members target_qq_id member_rows [] session;
  match batch with
  | [] => Ok session
  | _ :: _ => bulk_save_objects batch session
  end.

(** [clean_data_to_analysis_db]: commit on success; on any exception
    roll back, which leaves the stored rows as they were, and raise
    [Exception] with the cause in its text. *)
Definition clean_data_to_analysis_db (source : source_db)
    (target_qq_id : string) (db : analysis_db)
  : analysis_db * result unit :=
  match clean_data_transaction source target_qq_id db with
  | Ok session => (session, Ok tt)
  | Raise e =>
      (db, Raise (mk_exn Exception None ("数据清洗失败: " +:+ exn_str e)))
  end.

End Pipeline.

(** ** [process_json]: the structured import *)

Definition attribute_error (ty attr : string) : exn :=
  mk_exn AttributeError None
    ("'" +:+ ty +:+ "' object has no attribute '" +:+ attr +:+ "'").

Definition type_name (v : json) : string :=
  match v with
  | JNull => "NoneType"
  | JBool _ => "bool"
  | JInt _ => "int"
  | JStr _ => "str"
  | JList _ => "list"
  | JDict _ => "dict"
  end.

(** [v.items()] *)
Definition items (v : json) : result (list (string * json)) :=
  match v with
  | JDict d => Ok d
  | _ => Raise (attribute_error (type_name v) "items")
  end.

Fixpoint assoc (k : string) (d : list (string * json)) : option json :=
  match d with
  | [] => None
  | (k', v) :: d' => if String.eqb k' k then Some v else assoc k d'
  end.

(** [v.get(key, default)] *)
Definition get (v : json) (key : string) (default : json) : result json :=
  match v with
  | JDict d => Ok (match assoc key d with Some x => x | None => default end)
  | _ => Raise (attribute_error (type_name v) "get")
  end.

(** What the SQLite driver accepts as a statement parameter. *)
Definition bind_param (v : json) : result sqlval :=
  match v with
  | JNull => Ok SqlNull
  | JBool b => Ok (SqlInt (if b then 1 else 0))
  | JInt z =>
      if (- 2 ^ 63 <=? z) && (z <? 2 ^ 63) then Ok (SqlInt z)
      else Raise (mk_exn OverflowError None
                    "Python int too large to convert to SQLite INTEGER")
  | JStr s => Ok (SqlText s)
  | JList _ | JDict _ =>
      Raise (mk_exn InterfaceError None
               "Error binding parameter: type is not supported")
  end.

(** The inner loop over [members.items()]. An attribute that the driver
    cannot bind makes the flush fail; the model reports it where the
    object is merged. *)
Fixpoint import_members (qq_id gid : string) (members : list (string * json))
    (session : analysis_db) : result analysis_db :=
  match members with
  | [] => Ok session
  | (uid, u_info) :: rest =>
      if String.eqb uid qq_id then import_members qq_id gid rest session
      else
        user_name ← get u_info "user_name" (JStr "");
        user_group_name ← get u_info "user_group_name" (JStr "");
        user_name ← bind_param user_name;
        user_group_name ← bind_param user_group_name;
        import_members qq_id gid rest
          (merge_member (Member.mk gid uid user_name user_group_name) session)
  end.

Fixpoint import_groups (qq_id : string) (data : list (string * json))
    (session : analysis_db) : result analysis_db :=
  match data with
  | [] => Ok session
  | (gid, g_info) :: rest =>
      g_name ← get g_info "group_name" (JStr "Unknown");
      g_name ← bind_param g_name;
      let session := merge_group (Group.mk gid g_name) session in
      members ← get g_info "members" (JDict []);
      members ← items members;
      session ← import_members qq_id gid members session;
      import_groups qq_id rest session
  end.

Definition process_json_transaction (data : json) (qq_id : string)
    (session : analysis_db) : result analysis_db :=
  let session := query_delete_members session in
  let session := query_delete_groups session in
  data ← items data;
  import_groups qq_id data session.

(** [process_json] from [data = json.loads(content)] on. An exception
    leaves the transaction uncommitted, so the stored rows stay as they
    were, and the route answers with an [HTTPException]. *)
Definition process_json (data : json) (qq_id : string) (db : analysis_db)
  : analysis_db * result unit :=
  match process_json_transaction data qq_id db with
  | Ok session => (session, Ok tt)
  | Raise e =>
      (db, Raise (mk_exn HTTPException None ("JSON 导入失败: " +:+ exn_str e)))
  end.

(** ** The analysis queries *)

(** [GROUP BY Member.user_id]: one group per user, with its rows. *)
Definition group_by_user_id (rows : list Member.t)
  : list (string * list Member.t) :=
  map (fun u => (u, filter (fun r => Member.user_id r = u) rows))
      (remove_dups (map Member.user_id rows)).

(** [func.count(Member.group_id)]: [group_id] is never NULL, so every
    row of the group counts. *)
Definition count_group_id (rs : list Member.t) : Z := Z.of_nat (length rs).

(** [func.count(distinct(Member.group_id))] *)
Definition count_distinct_group_id (rs : list Member.t) : Z :=
  Z.of_nat (length (remove_dups (map Member.group_id rs))).

(** A bare column of an aggregate query: SQLite takes it from one row of
    the group and does not say from which. [pick] stands for the choice
    of the engine, as a position among the rows of the group; a query
    is stated for every [pick]. *)
Definition bare_user_name (pick : list Member.t -> nat) (rs : list Member.t)
  : sqlval :=
  match rs !! (pick rs `mod` length rs)%nat with
  | Some r => Member.user_name r
  | None => SqlNull
  end.

Fixpoint bytes_compare (a b : list byte) : comparison :=
  match a, b with
  | [], [] => Eq
  | [], _ :: _ => Lt
  | _ :: _, [] => Gt
  | x :: a', y :: b' =>
      match Z.compare (Py.byte_val x) (Py.byte_val y) with
      | Eq => bytes_compare a' b'
      | c => c
      end
  end.

(** SQLite's ordering of values: NULL, then numbers, then text (by its
    bytes), then blobs. *)
Definition sql_compare (a b : sqlval) : comparison :=
  match a, b with
  | SqlNull, SqlNull => Eq
  | SqlNull, _ => Lt
  | _, SqlNull => Gt
  | SqlInt x, SqlInt y => Z.compare x y
  | SqlInt _, _ => Lt
  | _, SqlInt _ => Gt
  | SqlText x, SqlText y => String.compare x y
  | SqlText _, _ => Lt
  | _, SqlText _ => Gt
  | SqlBlob x, SqlBlob y => bytes_compare x y
  end.

(** [func.max(column)]: the largest non-NULL value, NULL if there is none. *)
Definition sql_max (vs : list sqlval) : sqlval :=
  fold_left
    (fun acc v => match sql_compare acc v with Lt => v | _ => acc end)
    vs SqlNull.

Record frequent_user := mk_frequent_user {
  fu_user_id : string;
  fu_user_name : sqlval;
  fu_group_count : Z
}.

(** [ORDER BY count DESC] *)
Definition count_desc (x y : frequent_user) : Prop :=
  fu_group_count y <= fu_group_count x.

#[global] Instance count_desc_dec : RelDecision count_desc.
Proof. intros x y. unfold count_desc. apply _. Defined.

(** A Python [int] given as a statement parameter: the driver passes
    it as a 64-bit SQLite integer and raises when it does not fit. *)
Definition bind_int (z : Z) : result Z :=
  if (- 2 ^ 63 <=? z) && (z <? 2 ^ 63) then Ok z
  else Raise (mk_exn OverflowError None
                "Python int too large to convert to SQLite INTEGER").

(** [get_frequent_users]: [min_groups] is a Python [int] bound as a
    parameter of the statement. *)
Definition get_frequent_users (pick : list Member.t -> nat)
    (db : analysis_db) (min_groups : Z) : result (list frequent_user) :=
  min_groups ← bind_int min_groups;
  let grouped := group_by_user_id (member_rows db) in
  let selected :=
    map (fun '(u, rs) =>
           mk_frequent_user u (bare_user_name pick rs) (count_group_id rs))
        grouped in
  let having := filter (fun r => min_groups <= fu_group_count r) selected in
  mret (merge_sort count_desc having).

Definition analyze_intersection (db : analysis_db) (group_ids : list string)
  : list (string * sqlval) :=
  match group_ids with
  | [] => []
  | _ :: _ =>
      let target_len := Z.of_nat (length group_ids) in
      let rows :=
        filter (fun r => Member.group_id r ∈ group_ids) (member_rows db) in
      let grouped := group_by_user_id rows in
      let having :=
        filter (fun '(u, rs) => count_distinct_group_id rs = target_len)
               grouped in
      map (fun '(u, rs) => (u, sql_max (map Member.user_name rs))) having
  end.

(** ** Vocabulary of the specification *)

(** Bytes 46..53 of a raw file: the seed. *)
Definition spec_seed_bytes (data : list byte) : list byte :=
  take 8 (drop 46 data).

(** The seed string: the escaped text of the seed bytes, that is their
    [repr] without the [b'] prefix and the closing quote. *)
Definition spec_seed_string (data : list byte) : string :=
  Py.repr_body (spec_seed_bytes data).

(** Key = hex(MD5(hex(MD5(installationId)) + seedString)). *)
Definition spec_derive_key (installation_id : string) (data : list byte)
  : string :=
  md5 (md5 installation_id +:+ spec_seed_string data).

Definition lower_hex (s : string) : Prop :=
  Forall (fun c => c ∈ Py.hexdigits) (list_ascii_of_string s).

(** The member the ETL derives from a row of the member table: none
    for a row with at most 5 columns or a NULL in column 2 or 5, none
    for the account's own row; otherwise group id = column 2, user id =
    column 5, user name = column 1 and nickname = column 0 if that is
    non-empty, else the user name. *)
Definition spec_etl_member (account_id : string) (row : list sqlval)
  : option Member.t :=
  if (length row <=? 5)%nat
     || is_None (Pipeline.col 2 row) || is_None (Pipeline.col 5 row)
  then None
  else if String.eqb (py_str (Pipeline.col 5 row)) account_id then None
  else Some (Member.mk (py_str (Pipeline.col 2 row))
               (py_str (Pipeline.col 5 row))
               (Pipeline.col 1 row)
               (if truthy (Pipeline.col 0 row)
                then Pipeline.col 0 row else Pipeline.col 1 row)).

Definition spec_etl_members (account_id : string)
    (rows : list (list sqlval)) : list Member.t :=
  omap (spec_etl_member account_id) rows.

(** An import run, by either path. *)
Inductive import_source :=
  | RawTables (source : source_db)
  | Structured (data : json).

Definition run_import (src : import_source) (account_id : string)
    (db : analysis_db) : analysis_db * result unit :=
  match src with
  | RawTables source =>
      Pipeline.clean_data_to_analysis_db source account_id db
  | Structured data => process_json data account_id db
  end.

(** No Member row of the schema has the account's identifier as its
    [user_id]. *)
Definition no_self_member (account_id : string) (db : analysis_db) : Prop :=
  forall g u cells, members db !! (g, u) = Some cells -> u <> account_id.

(** User [u] is a member of group [g]. *)
Definition is_member (db : analysis_db) (g u : string) : Prop :=
  is_Some (members db !! (g, u)).

(** The users of a schema are the user ids of its Member rows. *)
Definition is_user (db : analysis_db) (u : string) : Prop :=
  exists g, is_member db g u.

(** The distinct groups of a user and their number. *)
Definition groups_of (db : analysis_db) (u : string) : gset string :=
  set_map fst (filter (fun k : string * string => k.2 = u) (dom (members db))).

Definition group_count (db : analysis_db) (u : string) : Z :=
  Z.of_nat (size (groups_of db u)).

(** The remediation text of a decryption failure: set up a backend as
    the project page says, or fetch an already-decrypted file by hand
    and import it. *)
Definition remediation_text : string :=
  "请参照项目 GitHub 页面配置环境，或者访问 https://docs.aaqwq.top/decrypt/decode_db.html "
  +:+ "手动获取 group_info.decrypted.db 后使用「阶段3」导入。".

Definition contains (needle hay : string) : bool :=
  match String.index 0 needle hay with
  | Some _ => true
  | None => false
  end.

Definition carries_remediation (e : exn) : bool :=
  contains remediation_text (exn_str e).

(** A probe outcome that makes the lookup move on to the next candidate. *)
Definition skipped (r : result unit) : Prop :=
  exists e, r = Raise e
            /\ (exn_cls e = FileNotFoundError \/ exn_cls e = CalledProcessError).

(** No candidate of the list can be started. *)
Definition not_located (env : environment) : Prop :=
  Forall (fun cmd => skipped (subprocess_run env [cmd] (".quit" +:+ Py.nl)))
         (Pipeline.candidates env).

(** The text a failed child process leaves: its standard error, or the
    text of the error when that is empty. *)
Definition process_error_text (e : exn) : string :=
  match exn_stderr e with
  | Some (String c t) => String c t
  | _ => exn_str e
  end.

(** ** Sample inputs *)

Module Sample.

(** A raw file of 60 bytes [0, 1, ..., 59]. *)
Definition raw_file : list byte :=
  map MD5.byte_of_Z (map Z.of_nat (seq 0 60)).

(** A raw file of three bytes. *)
Definition short_file : list byte := [x61; x62; x63].

Definition disk : gmap string (list byte) :=
  {[ "group_info.db"%string := raw_file; "short.db"%string := short_file ]}.

(** Account 1000 with groups 1 (Alpha: A, B, C and the account
    itself) and 2 (Beta: B, C, D). *)
Definition group_row (gid name : sqlval) : list sqlval :=
  [gid; SqlNull; SqlNull; SqlNull; SqlNull; name].

Definition member_row (nick name gid uid : sqlval) : list sqlval :=
  [nick; name; gid; SqlNull; SqlNull; uid].

Definition tables : source_db :=
  mk_source
    (Some [group_row (SqlInt 1) (SqlText "Alpha");
           group_row (SqlInt 2) (SqlText "Beta")])
    (Some [member_row (SqlText "a1") (SqlText "A") (SqlInt 1) (SqlText "A");
           member_row (SqlText "") (SqlText "B") (SqlInt 1) (SqlText "B");
           member_row SqlNull (SqlText "C") (SqlInt 1) (SqlText "C");
           member_row SqlNull (SqlText "Me") (SqlInt 1) (SqlInt 1000);
           member_row (SqlText "b2") (SqlText "B") (SqlInt 2) (SqlText "B");
           member_row (SqlText "c2") (SqlText "C") (SqlInt 2) (SqlText "C");
           member_row (SqlText "d2") (SqlText "D") (SqlInt 2) (SqlText "D")]).

(** The structured payload of the specification's scenario. *)
Definition payload : json :=
  JDict [("G9"%string,
          JDict [("group_name"%string, JStr "X");
                 ("members"%string,
                  JDict [("1000"%string,
                          JDict [("user_name"%string, JStr "Me")]);
                         ("U1"%string,
                          JDict [("user_name"%string, JStr "Bob")])])])].

Definition fresh_world : world := mk_world ∅ [] [].

(** A host whose library binding rejects the file and where no shell
    is installed. *)
Definition bare_host : environment :=
  mk_environment "linux" true
    (fun _ => Ok tt)
    (fun _ _ _ => Raise (mk_exn OperationalError None "file is not a database"))
    (fun argv _ =>
       Raise (mk_exn FileNotFoundError None "[Errno 2] No such file or directory")).

(** A host whose shell starts but rejects the database. *)
Definition failing_shell : environment :=
  mk_environment "linux" false
    (fun _ => Ok tt)
    (fun _ _ _ => Ok tt)
    (fun argv _ =>
       match argv with
       | [_] => Ok tt
       | _ =>
           Raise (mk_exn CalledProcessError
                    (Some "Error: file is not a database"%string)
                    "Command returned non-zero exit status 1.")
       end).

End Sample.

(** ** Further queries and routes *)

(** The rows of [groups], one [Group] per stored key. *)
Definition group_rows (db : analysis_db) : list Group.t :=
  map (fun '(g, n) => Group.mk g n) (map_to_list (groups db)).

(** [search_groups]. [like pattern v] stands for the engine's
    [v LIKE pattern]; the query keeps at most 20 rows. *)
Definition search_groups (like : string -> sqlval -> bool)
    (db : analysis_db) (q : string) : list Group.t :=
  let query := group_rows db in
  let query :=
    match q with
    | EmptyString => query
    | String _ _ =>
        filter (fun g => like ("%" +:+ q +:+ "%") (Group.group_name g) = true)
               query
    end in
  take 20 query.

(** [analyze_group_overlap]: the members of [group_id], each with the
    number of all their groups, kept when that number exceeds 1. *)
Definition analyze_group_overlap (pick : list Member.t -> nat)
    (db : analysis_db) (group_id : string) : list frequent_user :=
  let target_group_members :=
    map Member.user_id
        (filter (fun r => Member.group_id r = group_id) (member_rows db)) in
  let rows :=
    filter (fun r => Member.user_id r ∈ target_group_members)
           (member_rows db) in
  let grouped := group_by_user_id rows in
  let selected :=
    map (fun '(u, rs) =>
           mk_frequent_user u (bare_user_name pick rs) (count_group_id rs))
        grouped in
  let having := filter (fun r => 1 < fu_group_count r) selected in
  merge_sort count_desc having.

(** [groups JOIN members ON members.group_id = groups.group_id] *)
Definition join_members (db : analysis_db) : list (Group.t * Member.t) :=
  g ← group_rows db;
  m ← filter (fun m => Member.group_id m = Group.group_id g) (member_rows db);
  [(g, m)].

(** [get_user_group_details]: the join, restricted to the rows of
    [target_user_id], projected on group name and nickname. *)
Definition get_user_group_details (db : analysis_db) (target_user_id : string)
  : list (sqlval * sqlval) :=
  let results :=
    filter (fun '(g, m) => Member.user_id m = target_user_id)
           (join_members db) in
  map (fun '(g, m) => (Group.group_name g, Member.user_group_name m)) results.

(** ** Payloads the structured import accepts *)

(** A value the SQLite driver binds. *)
Definition bindable (v : json) : Prop :=
  match v with
  | JNull | JBool _ | JStr _ => True
  | JInt z => - 2 ^ 63 <= z < 2 ^ 63
  | JList _ | JDict _ => False
  end.

(** The field of an object, or its default. *)
Definition field (d : list (string * json)) (key : string) (default : json)
  : json :=
  match assoc key d with Some x => x | None => default end.

(** A member entry is accepted when it is the account's own entry,
    which is skipped unread, or an object whose two names can be
    bound. *)
Definition accepted_member (qq_id : string) (entry : string * json) : Prop :=
  entry.1 = qq_id
  \/ exists d, entry.2 = JDict d
               /\ bindable (field d "user_name" (JStr ""))
               /\ bindable (field d "user_group_name" (JStr "")).

Definition accepted_group (qq_id : string) (entry : string * json) : Prop :=
  exists d ms,
    entry.2 = JDict d
    /\ bindable (field d "group_name" (JStr "Unknown"))
    /\ field d "members" (JDict []) = JDict ms
    /\ Forall (accepted_member qq_id) ms.

Definition accepted_payload (qq_id : string) (data : json) : Prop :=
  exists gs, data = JDict gs /\ Forall (accepted_group qq_id) gs.

(** Every Member row lies in a group that has a Group row. *)
Definition owned (session : analysis_db) : Prop :=
  forall g u cells,
    members session !! (g, u) = Some cells -> is_Some (groups session !! g).


(** ** Vocabulary for the processes [decrypt_db] starts *)

(** The probe of a candidate: the command alone, with [.quit] on its
    standard input. *)
Definition probe_of (cmd : string) : list string * string :=
  ([cmd], ".quit" +:+ Py.nl).

(** An exception that ends the lookup instead of skipping the
    candidate. *)
Definition aborts_lookup (e : exn) : Prop :=
  exn_cls e <> FileNotFoundError /\ exn_cls e <> CalledProcessError.

(** ** Reading an escaped byte text back *)

Definition hexval (c : ascii) : Z :=
  let n := Z.of_N (N_of_ascii c) in
  if (48 <=? n) && (n <=? 57) then n - 48
  else if (97 <=? n) && (n <=? 102) then n - 87
  else 0.

(** The bytes an escaped text stands for: the inverse of the escaping
    that [repr] applies inside the quotes. *)
Fixpoint unescape (s : string) : list byte :=
  match s with
  | EmptyString => []
  | String c rest =>
      if Ascii.eqb c "\" then
        match rest with
        | EmptyString => []
        | String e rest' =>
            if Ascii.eqb e "x" then
              match rest' with
              | String h (String l rest'') =>
                  MD5.byte_of_Z (16 * hexval h + hexval l) :: unescape rest''
              | _ => []
              end
            else if Ascii.eqb e "t" then x09 :: unescape rest'
            else if Ascii.eqb e "n" then x0a :: unescape rest'
            else if Ascii.eqb e "r" then x0d :: unescape rest'
            else byte_of_ascii e :: unescape rest'
        end
      else byte_of_ascii c :: unescape rest
  end.

Definition printable (c : ascii) : Prop :=
  32 <= Z.of_N (N_of_ascii c) <= 126.

(** ** Paths and files *)

(** The store of [open_rb] and [write_wb] holds one entry per file. A
    process reaches a file through a path, and several paths can name
    one file ([a.db] and [./a.db], or a link): [realpath] gives the
    entry that a path stands for. *)
Record host_files := mk_host_files {
  realpath : string -> string;
  store : gmap string (list byte)
}.

(** The contents found at a path, if it names a file. *)
Definition read_file (h : host_files) (path : string) : option (list byte) :=
  store h !! realpath h path.

(** [Pipeline.remove_header] and [Pipeline.get_key] called with paths
    of the host. *)
Definition remove_header_at (h : host_files) (source_path dest_path : string)
  : result host_files :=
  files ← Pipeline.remove_header (store h)
             (realpath h source_path) (realpath h dest_path);
  mret (mk_host_files (realpath h) files).

Definition get_key_at (h : host_files) (nt_uid db_file_path : string)
  : result string :=
  Pipeline.get_key (store h) nt_uid (realpath h db_file_path).

(** ** [scan_termux_uids] *)

(** [s.startswith(sep)] *)
Fixpoint starts_with (sep s : string) : bool :=
  match sep, s with
  | EmptyString, _ => true
  | String _ _, EmptyString => false
  | String a sep', String b s' => Ascii.eqb a b && starts_with sep' s'
  end.

(** [s.split(sep)] for a non-empty [sep]: the text is cut at the
    occurrences of [sep], found from the left without overlap. [skip]
    counts the characters of a found separator still to pass, [cur] is
    the part read so far. *)
Fixpoint split_go (sep : string) (skip : nat) (cur s : string) : list string :=
  match s with
  | EmptyString => [cur]
  | String c s' =>
      match skip with
      | Datatypes.S k => split_go sep k cur s'
      | O =>
          if starts_with sep s
          then cur :: split_go sep (String.length sep - 1) EmptyString s'
          else split_go sep 0 (cur +:+ String c EmptyString) s'
      end
  end.

Definition split (s sep : string) : list string := split_go sep 0 EmptyString s.

(** The text of [s] from position [k] on. *)
Fixpoint str_drop (k : nat) (s : string) : string :=
  match k, s with
  | O, _ => s
  | Datatypes.S _, EmptyString => EmptyString
  | Datatypes.S k', String _ s' => str_drop k' s'
  end.

(** The answer of [scan_termux_uids]; the keys [error] and [uids] are
    absent from some answers. *)
Record uid_scan := mk_uid_scan {
  available : bool;
  scan_error : option string;
  uids : option (list (string * string))
}.

(** The loop over the file names of the uid directory. *)
Definition scan_filenames (filenames : list string) : list (string * string) :=
  fold_left
    (fun uids filename =>
       if contains "###" filename then
         match split filename "###" with
         | [qq; nt_uid] => uids ++ [(qq, nt_uid)]
         | _ => uids
         end
       else uids)
    filenames [].

(** [scan_termux_uids]; [listing] is [None] when the uid directory does
    not exist and otherwise the outcome of [os.listdir]. *)
Definition scan_termux_uids (listing : option (result (list string)))
  : result uid_scan :=
  match listing with
  | None => Ok (mk_uid_scan false None (Some []))
  | Some (Ok filenames) =>
      Ok (mk_uid_scan true None (Some (scan_filenames filenames)))
  | Some (Raise e) =>
      if bool_decide (exn_cls e = PermissionError) then
        Ok (mk_uid_scan false
              (Some "没有权限读取 /data 目录，请确保使用 tsu 运行"%string) None)
      else Raise e
  end.

(** A text without the character [#]. *)
Definition no_hash (s : string) : Prop :=
  Forall (fun c => c <> "#"%char) (list_ascii_of_string s).

(** ** The error answer of the pipeline routes *)



(* ===================================================================== *)
(** * Part II: lemmas and theorems                                        *)
(* ===================================================================== *)

(** ** Strings, slices and [repr] *)

Section strings.

Lemma string_length_app (a b : string) :
  String.length (a +:+ b) = (String.length a + String.length b)%nat.
Proof. induction a as [|c a IH]; simpl; [done | by rewrite IH]. Qed.

Lemma substring_whole_prefix (a b : string) :
  String.substring 0 (String.length a) (a +:+ b) = a.
Proof.
  induction a as [|c a IH]; simpl.
  - by destruct b.
  - by rewrite IH.
Qed.

Lemma list_ascii_app (a b : string) :
  list_ascii_of_string (a +:+ b)
  = list_ascii_of_string a ++ list_ascii_of_string b.
Proof. induction a as [|c a IH]; simpl; [done | by rewrite IH]. Qed.

Lemma slice_strip_wrapping (a b c : ascii) (body : string) :
  Py.slice_from_to_back 2 1 (String a (String b (body +:+ String c "")))
  = body.
Proof.
  unfold Py.slice_from_to_back.
  cbn [String.length]. rewrite string_length_app. cbn [String.length].
  replace (Datatypes.S (Datatypes.S (String.length body + 1)) - 1 - 2)%nat
    with (String.length body) by lia.
  cbn [String.substring]. apply substring_whole_prefix.
Qed.

(** Dropping the two-character prefix and the closing quote of
    [str(bs)] leaves the escaped bytes. *)
Lemma str_bytes_slice (bs : list byte) :
  Py.slice_from_to_back 2 1 (Py.str_bytes bs) = Py.repr_body bs.
Proof. apply slice_strip_wrapping. Qed.

(** [header_chunk[-8:]] of a full 54-byte header is bytes 46..53. *)
Lemma last_items_header (data : list byte) :
  (54 <= length data)%nat ->
  Py.last_items 8 (take 54 data) = spec_seed_bytes data.
Proof.
  intros Hlen. unfold Py.last_items, spec_seed_bytes.
  rewrite length_take, Nat.min_l by done.
  by rewrite take_drop_commute.
Qed.

(** A file shorter than the header is read whole. *)
Lemma last_items_short (data : list byte) :
  (length data < 54)%nat ->
  Py.last_items 8 (take 54 data) = Py.last_items 8 data.
Proof. intros Hlen. by rewrite take_ge by lia. Qed.

End strings.

(** ** The MD5 hex digest *)

Section md5_shape.

Lemma hexdigit_lower (v : Z) : Py.hexdigit (Z.land v 15) ∈ Py.hexdigits.
Proof.
  unfold Py.hexdigit.
  assert (0 <= Z.land v 15 < 16) as Hr.
  { change 15 with (Z.ones 4). rewrite Z.land_ones by lia.
    apply Z.mod_pos_bound. lia. }
  apply list_elem_of_In, nth_In.
  change (length Py.hexdigits) with 16%nat. lia.
Qed.

Lemma hex2_length (v : Z) : String.length (Py.hex2 v) = 2%nat.
Proof. reflexivity. Qed.

Lemma hex2_lower (v : Z) : lower_hex (Py.hex2 v).
Proof.
  unfold lower_hex, Py.hex2. cbn [list_ascii_of_string].
  apply Forall_cons; split; [apply hexdigit_lower |].
  apply Forall_cons; split; [apply hexdigit_lower | apply Forall_nil_2].
Qed.

Lemma bytes_le_length (n : nat) (z : Z) : length (MD5.bytes_le n z) = n.
Proof. revert z. induction n as [|n IH]; intros z; simpl; [done | by rewrite IH]. Qed.

Lemma digest_length (msg : list byte) : length (MD5.digest msg) = 16%nat.
Proof. unfold MD5.digest. by rewrite !length_app, !bytes_le_length. Qed.

Lemma hex_fold_length (bs : list byte) :
  String.length
    (fold_right (fun b acc => Py.hex2 (Py.byte_val b) +:+ acc) EmptyString bs)
  = (2 * length bs)%nat.
Proof.
  induction bs as [|b bs IH]; [done |].
  cbn [fold_right length]. rewrite string_length_app, IH, hex2_length. lia.
Qed.

Lemma hex_fold_lower (bs : list byte) :
  lower_hex
    (fold_right (fun b acc => Py.hex2 (Py.byte_val b) +:+ acc) EmptyString bs).
Proof.
  induction bs as [|b bs IH]; [constructor |].
  cbn [fold_right]. unfold lower_hex. rewrite list_ascii_app.
  apply Forall_app. split; [apply hex2_lower | apply IH].
Qed.

Lemma md5_length (s : string) : String.length (md5 s) = 32%nat.
Proof.
  unfold md5, MD5.hexdigest. by rewrite hex_fold_length, digest_length.
Qed.

Lemma md5_lower_hex (s : string) : lower_hex (md5 s).
Proof. unfold md5, MD5.hexdigest. apply hex_fold_lower. Qed.

End md5_shape.

Example md5_empty : md5 "" = "d41d8cd98f00b204e9800998ecf8427e"%string.
Proof. vm_compute. reflexivity. Qed.

Example md5_abc : md5 "abc" = "900150983cd24fb0d6963f7d28e17f72"%string.
Proof. vm_compute. reflexivity. Qed.

Example md5_two_blocks :
  md5 "aaaaaaaaaaaaaaaaaaaaaaaaaaaaaaaaaaaaaaaaaaaaaaaaaaaaaaaa"
  = "3b0c8ac703f828b04c6c197006d17218"%string.
Proof. vm_compute. reflexivity. Qed.

(** ** Key derivation and header stripping *)

Section key_derivation.

Context (files : gmap string (list byte)).

Lemma get_key_unfold (nt_uid path : string) (data : list byte) :
  files !! path = Some data ->
  Pipeline.get_key files nt_uid path
  = Ok (md5 (md5 nt_uid
             +:+ Py.repr_body (Py.last_items 8 (take 54 data)))).
Proof.
  intros Hfile. unfold Pipeline.get_key, open_rb. rewrite Hfile.
  cbn. by rewrite str_bytes_slice.
Qed.

Lemma get_key_missing (nt_uid path : string) :
  files !! path = None ->
  exists msg,
    Pipeline.get_key files nt_uid path
    = Raise (mk_exn FileNotFoundError None msg).
Proof.
  intros Hfile. unfold Pipeline.get_key, open_rb. rewrite Hfile.
  by eexists.
Qed.

End key_derivation.

(** C1. For a raw file with at least 54 bytes, [get_key] returns
    hex(MD5(hex(MD5(nt_uid)) + seed string)), where the seed string is
    the escaped text of bytes 46..53; the key has 32 characters, all
    lowercase hex digits, and it is determined by [nt_uid] and the first
    54 bytes of the file alone. *)
Theorem get_key_derives_key
    (files : gmap string (list byte)) (nt_uid path : string)
    (data : list byte) :
  files !! path = Some data ->
  (54 <= length data)%nat ->
  Pipeline.get_key files nt_uid path = Ok (spec_derive_key nt_uid data)
  /\ String.length (spec_derive_key nt_uid data) = 32%nat
  /\ lower_hex (spec_derive_key nt_uid data)
  /\ (forall (files' : gmap string (list byte)) (path' : string)
             (data' : list byte),
        files' !! path' = Some data' ->
        take 54 data' = take 54 data ->
        Pipeline.get_key files' nt_uid path'
        = Pipeline.get_key files nt_uid path).
Proof.
  intros Hfile Hlen. split; [| split; [| split]].
  - rewrite (get_key_unfold _ _ _ _ Hfile), last_items_header by done.
    reflexivity.
  - apply md5_length.
  - apply md5_lower_hex.
  - intros files' path' data' Hfile' Hhead.
    rewrite (get_key_unfold _ _ _ _ Hfile), (get_key_unfold _ _ _ _ Hfile').
    by rewrite Hhead.
Qed.

Lemma get_key_derives_key_witness :
  Pipeline.get_key Sample.disk "u_abc" "group_info.db"
  = Ok "d8dbee672d07f8d706c50f9cb297a7dc"%string.
Proof.
  destruct (get_key_derives_key Sample.disk "u_abc" "group_info.db"
              Sample.raw_file) as [Hkey _].
  - vm_compute. reflexivity.
  - vm_compute. lia.
  - rewrite Hkey. vm_compute. reflexivity.
Defined.

(** C9, as the code has it. A readable raw file shorter than 54 bytes
    does not make [get_key] fail: the key is derived from the last
    eight bytes that are there (all of them when there are fewer). A
    missing file makes the call raise [FileNotFoundError]. *)
Theorem get_key_short_file
    (files : gmap string (list byte)) (nt_uid path : string)
    (data : list byte) :
  files !! path = Some data ->
  (length data < 54)%nat ->
  Pipeline.get_key files nt_uid path
  = Ok (md5 (md5 nt_uid +:+ Py.repr_body (Py.last_items 8 data)))
  /\ exists msg,
       Pipeline.get_key (delete path files) nt_uid path
       = Raise (mk_exn FileNotFoundError None msg).
Proof.
  intros Hfile Hlen. split.
  - rewrite (get_key_unfold _ _ _ _ Hfile), last_items_short by done.
    reflexivity.
  - apply get_key_missing, lookup_delete_eq.
Qed.

Lemma get_key_short_file_witness :
  Pipeline.get_key Sample.disk "u_abc" "short.db"
  = Ok "92442f8c49ae2e90cc16e292d10b1342"%string.
Proof.
  destruct (get_key_short_file Sample.disk "u_abc" "short.db"
              Sample.short_file) as [Hkey _].
  - vm_compute. reflexivity.
  - vm_compute. lia.
  - rewrite Hkey. vm_compute. reflexivity.
Defined.

(** A three-byte file, shorter than the 54-byte header, still yields a
    key. *)
Lemma get_key_short_file_no_error :
  (length Sample.short_file < 54)%nat
  /\ Sample.disk !! "short.db"%string = Some Sample.short_file
  /\ Pipeline.get_key Sample.disk "u_abc" "short.db"
     = Ok "92442f8c49ae2e90cc16e292d10b1342"%string.
Proof. split; [vm_compute; lia | split; vm_compute; reflexivity]. Qed.




(** ** Decryption: the two strategies and their failures *)

Section decrypt.

Context (env : environment).

(** Effects only ever add to the record of started processes. *)
Lemma probe_candidates_spawned (cs : list string) (w : world)
    (p : list string * string) :
  p ∈ spawned w -> p ∈ spawned (Pipeline.probe_candidates env cs w).1.
Proof.
  revert w. induction cs as [|cmd cs IH]; intros w Hp; [done |].
  cbn [Pipeline.probe_candidates].
  assert (p ∈ spawned (spawn [cmd] (".quit" +:+ Py.nl) w)) as Hp'.
  { cbn. apply elem_of_app. by left. }
  destruct (subprocess_run env [cmd] (".quit" +:+ Py.nl)) as [[]|e]; [done |].
  case_bool_decide; [by apply IH | done].
Qed.

Lemma probe_candidates_first (cmd : string) (cs : list string) (w : world) :
  ([cmd], ".quit" +:+ Py.nl)
  ∈ spawned (Pipeline.probe_candidates env (cmd :: cs) w).1.
Proof.
  cbn [Pipeline.probe_candidates].
  assert (([cmd], ".quit" +:+ Py.nl)
          ∈ spawned (spawn [cmd] (".quit" +:+ Py.nl) w)) as Hp.
  { cbn. apply elem_of_app. right. apply list_elem_of_singleton. done. }
  destruct (subprocess_run env [cmd] (".quit" +:+ Py.nl)) as [[]|e]; [done |].
  case_bool_decide; [by apply probe_candidates_spawned | done].
Qed.

(** When every candidate is skipped the lookup answers [None]. *)
Lemma probe_candidates_none (cs : list string) (w : world) :
  Forall (fun cmd => skipped (subprocess_run env [cmd] (".quit" +:+ Py.nl)))
         cs ->
  (Pipeline.probe_candidates env cs w).2 = Ok None.
Proof.
  intros Hall. revert w.
  induction Hall as [|cmd cs (e & Hrun & Hcls) _ IH]; intros w; [done |].
  cbn [Pipeline.probe_candidates]. rewrite Hrun.
  rewrite bool_decide_eq_true_2 by done. apply IH.
Qed.

Lemma candidates_first :
  exists cmd cs, Pipeline.candidates env = cmd :: cs.
Proof.
  unfold Pipeline.candidates.
  destruct (String.eqb (platform env) "win32"); cbn; eauto.
Qed.

Lemma remove_if_exists_spawned (path : string) (w : world) :
  spawned (remove_if_exists path w) = spawned w.
Proof. unfold remove_if_exists. by case_decide. Qed.

Lemma decrypt_with_cli_spawned (enc dec key : string) (w : world)
    (p : list string * string) :
  p ∈ spawned (Pipeline._find_sqlcipher_binary env w).1 ->
  p ∈ spawned (Pipeline.decrypt_with_cli env enc dec key w).1.
Proof.
  unfold Pipeline.decrypt_with_cli.
  destruct (Pipeline._find_sqlcipher_binary env w) as [w1 [[cmd|]|e]];
    cbn [fst]; intros Hp; [| done | done].
  set (script := Pipeline.sql_script _ _).
  assert (p ∈ spawned w1 ++ [([cmd; enc], script)]) as Hp'.
  { apply elem_of_app. by left. }
  destruct (subprocess_run env [cmd; enc] script) as [[]|e];
    [| case_bool_decide]; cbn; by rewrite remove_if_exists_spawned.
Qed.

(** The library strategy falls through exactly when the binding is
    absent or the export sequence raises. *)
Lemma decrypt_with_library_falls_through (enc dec key : string) (w : world) :
  sqlcipher env = false
  \/ (sqlcipher_connect_plain env dec = Ok tt
      /\ exists e, sqlcipher_export env enc dec key = Raise e) ->
  exists w1, Pipeline.decrypt_with_library env enc dec key w = (w1, None)
             /\ spawned w1 = spawned w.
Proof.
  unfold Pipeline.decrypt_with_library.
  intros [-> | (-> & e & ->)]; [by eexists |].
  destruct (sqlcipher env); [| by eexists].
  eexists. split; [done |]. cbn. by rewrite remove_if_exists_spawned.
Qed.

Lemma decrypt_with_cli_not_located (enc dec key : string) (w : world) :
  not_located env ->
  (Pipeline.decrypt_with_cli env enc dec key w).2
  = Raise (mk_exn Exception None Pipeline.error_detail).
Proof.
  intros Hnone. unfold Pipeline.decrypt_with_cli.
  pose proof (probe_candidates_none _ w Hnone) as Hfind.
  unfold Pipeline._find_sqlcipher_binary.
  destruct (Pipeline.probe_candidates env (Pipeline.candidates env) w)
    as [w1 found].
  cbn in Hfind. by subst found.
Qed.

Lemma decrypt_with_cli_nonzero_exit (enc dec key cmd : string)
    (w w1 : world) (e : exn) :
  Pipeline._find_sqlcipher_binary env w = (w1, Ok (Some cmd)) ->
  subprocess_run env [cmd; enc]
    (Pipeline.sql_script key (Py.replace_char "\"%char "/"%char dec))
  = Raise e ->
  exn_cls e = CalledProcessError ->
  (Pipeline.decrypt_with_cli env enc dec key w).2
  = Raise (mk_exn Exception None
             ("命令行 sqlcipher 执行出错: " +:+ process_error_text e)).
Proof.
  intros Hfind Hrun Hcls. unfold Pipeline.decrypt_with_cli.
  rewrite Hfind, Hrun. by rewrite bool_decide_eq_true_2.
Qed.

End decrypt.

Lemma error_detail_remediation :
  carries_remediation (mk_exn Exception None Pipeline.error_detail) = true.
Proof. vm_compute. reflexivity. Qed.

(** C4, as the code has it. When the library binding is absent or its
    export sequence raises, [decrypt_db] goes on with the command-line
    strategy and probes the first candidate. If no candidate can be
    started the call fails with the text that carries the remediation;
    if the located shell exits with a non-zero status the call fails
    with the text of that process error instead. *)
Theorem decrypt_db_falls_back
    (env : environment) (enc dec key : string) (w : world) :
  sqlcipher env = false
  \/ (sqlcipher_connect_plain env dec = Ok tt
      /\ exists e, sqlcipher_export env enc dec key = Raise e) ->
  exists w1 : world,
    Pipeline.decrypt_with_library env enc dec key w = (w1, None)
    /\ Pipeline.decrypt_db env enc dec key w
       = Pipeline.decrypt_with_cli env enc dec key w1
    /\ (exists cmd cs,
          Pipeline.candidates env = cmd :: cs
          /\ ([cmd], ".quit" +:+ Py.nl)
             ∈ spawned (Pipeline.decrypt_db env enc dec key w).1)
    /\ (not_located env ->
        (Pipeline.decrypt_db env enc dec key w).2
        = Raise (mk_exn Exception None Pipeline.error_detail)
        /\ carries_remediation (mk_exn Exception None Pipeline.error_detail)
           = true)
    /\ (forall (cmd : string) (w2 : world) (e : exn),
          Pipeline._find_sqlcipher_binary env w1 = (w2, Ok (Some cmd)) ->
          subprocess_run env [cmd; enc]
            (Pipeline.sql_script key (Py.replace_char "\"%char "/"%char dec))
          = Raise e ->
          exn_cls e = CalledProcessError ->
          (Pipeline.decrypt_db env enc dec key w).2
          = Raise (mk_exn Exception None
                     ("命令行 sqlcipher 执行出错: " +:+ process_error_text e))).
Proof.
  intros Hlib.
  destruct (decrypt_with_library_falls_through env enc dec key w Hlib)
    as (w1 & Hw1 & _).
  assert (Pipeline.decrypt_db env enc dec key w
          = Pipeline.decrypt_with_cli env enc dec key w1) as Hdb.
  { unfold Pipeline.decrypt_db. by rewrite Hw1. }
  exists w1. split; [done |]. split; [done |]. rewrite Hdb.
  split; [| split].
  - destruct (candidates_first env) as (cmd & cs & Hcs).
    exists cmd, cs. split; [done |].
    apply decrypt_with_cli_spawned. unfold Pipeline._find_sqlcipher_binary.
    rewrite Hcs. apply probe_candidates_first.
  - intros Hnone. split; [| apply error_detail_remediation].
    by apply decrypt_with_cli_not_located.
  - intros cmd w2 e Hfind Hrun Hcls.
    by eapply decrypt_with_cli_nonzero_exit.
Qed.

Lemma decrypt_db_falls_back_witness :
  (Pipeline.decrypt_db Sample.bare_host "enc.db" "dec.db" "k"
     Sample.fresh_world).2
  = Raise (mk_exn Exception None Pipeline.error_detail)
  /\ (Pipeline.decrypt_db Sample.failing_shell "enc.db" "dec.db" "k"
        Sample.fresh_world).2
     = Raise (mk_exn Exception None
                "命令行 sqlcipher 执行出错: Error: file is not a database").
Proof.
  split.
  - destruct (decrypt_db_falls_back Sample.bare_host "enc.db" "dec.db" "k"
                Sample.fresh_world) as (w1 & _ & _ & _ & Hnone & _).
    + right. split; [reflexivity | eexists; reflexivity].
    + apply Hnone. unfold not_located.
      repeat (apply Forall_cons; split;
              [eexists; split; [reflexivity | left; reflexivity] |]).
      apply Forall_nil_2.
  - destruct (decrypt_db_falls_back Sample.failing_shell "enc.db" "dec.db" "k"
                Sample.fresh_world) as (w1 & Hw1 & _ & _ & _ & Hexit).
    + left. reflexivity.
    + injection Hw1 as <-.
      rewrite (Hexit "sqlcipher"%string
                 (spawn ["sqlcipher"%string] (".quit" +:+ Py.nl)
                    Sample.fresh_world)
                 (mk_exn CalledProcessError
                    (Some "Error: file is not a database"%string)
                    "Command returned non-zero exit status 1."));
        reflexivity.
Defined.

(** The shell is located and exits with a non-zero status: the failure
    carries the shell's error output and no remediation text. *)
Lemma decrypt_db_nonzero_exit_no_remediation :
  exists e : exn,
    (Pipeline.decrypt_db Sample.failing_shell "enc.db" "dec.db" "k"
       Sample.fresh_world).2 = Raise e
    /\ exn_str e = "命令行 sqlcipher 执行出错: Error: file is not a database"%string
    /\ carries_remediation e = false.
Proof. eexists. split; [vm_compute; reflexivity |]. split; vm_compute; reflexivity. Qed.

(** ** The import transactions *)

Ltac bind_ok H :=
  repeat match type of H with
         | mbind _ ?r = Ok _ =>
             let E := fresh "E" in
             destruct r eqn:E; [cbn in H | discriminate H]
         end.

Section session.

Lemma delete_all (session : analysis_db) :
  query_delete_groups (query_delete_members session) = empty_db.
Proof. reflexivity. Qed.

Lemma bulk_save_objects_app (a b : list Member.t) (session : analysis_db) :
  bulk_save_objects (a ++ b) session
  = bulk_save_objects a session ≫= bulk_save_objects b.
Proof.
  revert session. induction a as [|m a IH]; intros session; [done |].
  cbn [app bulk_save_objects].
  destruct (members session !! member_key m); [done | apply IH].
Qed.

Lemma merge_member_lookup (m : Member.t) (session : analysis_db)
    (k : string * string) :
  members (merge_member m session) !! k
  = if decide (member_key m = k) then Some (member_cells m)
    else members session !! k.
Proof. unfold merge_member. cbn. apply lookup_insert. Qed.

(** A batch that is saved leaves the groups alone, keeps the rows
    that were there, stores every one of its members, and stores
    nothing else. *)
Lemma bulk_save_objects_ok (batch : list Member.t)
    (session session' : analysis_db) :
  bulk_save_objects batch session = Ok session' ->
  groups session' = groups session
  /\ (forall k cells, members session !! k = Some cells ->
        members session' !! k = Some cells)
  /\ (forall m, m ∈ batch ->
        members session' !! member_key m = Some (member_cells m))
  /\ (forall k cells, members session' !! k = Some cells ->
        members session !! k = Some cells
        \/ exists m, m ∈ batch /\ k = member_key m).
Proof.
  revert session. induction batch as [|m batch IH]; intros session Hsave.
  - injection Hsave as <-. repeat split; [done | | by left].
    intros m Hm. by apply elem_of_nil in Hm.
  - cbn [bulk_save_objects] in Hsave.
    destruct (members session !! member_key m) eqn:Hfree; [done |].
    destruct (IH _ Hsave) as (Hg & Hkeep & Hin & Hout).
    split; [done |]. split; [| split].
    + intros k cells Hk. apply Hkeep. rewrite merge_member_lookup.
      case_decide; [congruence | done].
    + intros m' Hm'. apply elem_of_cons in Hm' as [-> | Hm']; [| by apply Hin].
      apply Hkeep. rewrite merge_member_lookup. by rewrite decide_True.
    + intros k cells Hk. destruct (Hout _ _ Hk) as [Hold | (m' & Hm' & ->)].
      * rewrite merge_member_lookup in Hold. case_decide as Hkey.
        -- right. exists m. split; [apply list_elem_of_here | done].
        -- by left.
      * right. exists m'. split; [by apply list_elem_of_further | done].
Qed.

Lemma result_bind_assoc {A B C} (r : result A) (f : A -> result B)
    (g : B -> result C) :
  (r ≫= f) ≫= g = r ≫= (fun a => f a ≫= g).
Proof. by destruct r. Qed.

Lemma spec_etl_members_cons (account_id : string) (row : list sqlval)
    (rows : list (list sqlval)) :
  spec_etl_members account_id (row :: rows)
  = match spec_etl_member account_id row with
    | Some m => m :: spec_etl_members account_id rows
    | None => spec_etl_members account_id rows
    end.
Proof. reflexivity. Qed.

Lemma spec_etl_member_malformed (account_id : string) (row : list sqlval) :
  (length row <=? 5)%nat || is_None (Pipeline.col 2 row)
    || is_None (Pipeline.col 5 row) = true ->
  spec_etl_member account_id row = None.
Proof. intros H. unfold spec_etl_member. by rewrite H. Qed.

Lemma spec_etl_member_self (account_id : string) (row : list sqlval) :
  (length row <=? 5)%nat || is_None (Pipeline.col 2 row)
    || is_None (Pipeline.col 5 row) = false ->
  String.eqb (py_str (Pipeline.col 5 row)) account_id = true ->
  spec_etl_member account_id row = None.
Proof. intros H1 H2. unfold spec_etl_member. by rewrite H1, H2. Qed.

Lemma spec_etl_member_kept (account_id : string) (row : list sqlval) :
  (length row <=? 5)%nat || is_None (Pipeline.col 2 row)
    || is_None (Pipeline.col 5 row) = false ->
  String.eqb (py_str (Pipeline.col 5 row)) account_id = false ->
  spec_etl_member account_id row
  = Some (Member.mk (py_str (Pipeline.col 2 row))
            (py_str (Pipeline.col 5 row))
            (Pipeline.col 1 row)
            (if truthy (Pipeline.col 0 row)
             then Pipeline.col 0 row else Pipeline.col 1 row)).
Proof. intros H1 H2. unfold spec_etl_member. by rewrite H1, H2. Qed.

(** The member loop with its final flush saves, in order, the members
    the rows give rise to: batching does not show in the outcome. *)
Lemma migrate_members_flush (target_qq_id : string)
    (rows : list (list sqlval)) (batch : list Member.t)
    (session : analysis_db) :
  Pipeline.migrate_members target_qq_id rows batch session
    ≫= (fun '(batch, session) =>
           match batch with
           | [] => Ok session
           | _ :: _ => bulk_save_objects batch session
           end)
  = bulk_save_objects (batch ++ spec_etl_members target_qq_id rows) session.
Proof.
  revert batch session. induction rows as [|row rows IH]; intros batch session.
  - cbn. rewrite app_nil_r. by destruct batch.
  - cbn [Pipeline.migrate_members]. rewrite spec_etl_members_cons.
    destruct ((length row <=? 5)%nat || is_None (Pipeline.col 2 row)
              || is_None (Pipeline.col 5 row)) eqn:Hshape.
    { rewrite (spec_etl_member_malformed _ _ Hshape). apply IH. }
    destruct (String.eqb (py_str (Pipeline.col 5 row)) target_qq_id)
      eqn:Hself.
    { rewrite (spec_etl_member_self _ _ Hshape Hself). apply IH. }
    rewrite (spec_etl_member_kept _ _ Hshape Hself).
    set (m := Member.mk _ _ _ _).
    replace (batch ++ m :: spec_etl_members target_qq_id rows)
      with ((batch ++ [m]) ++ spec_etl_members target_qq_id rows)
      by by rewrite <- app_assoc.
    destruct (Pipeline.BATCH_SIZE <=? Z.of_nat (length (batch ++ [m])));
      [| apply IH].
    rewrite result_bind_assoc, (bulk_save_objects_app (batch ++ [m])).
    destruct (bulk_save_objects (batch ++ [m]) session) as [s'|e]; [| done].
    apply (IH [] s').
Qed.

Lemma clean_data_transaction_spec (source : source_db)
    (target_qq_id : string) (session : analysis_db) :
  Pipeline.clean_data_transaction source target_qq_id session
  = group_rows ← Pipeline.fetchall (group_list source) "group_list";
    member_rows ← Pipeline.fetchall (group_member3 source) "group_member3";
    bulk_save_objects (spec_etl_members target_qq_id member_rows)
      (Pipeline.migrate_groups group_rows empty_db).
Proof.
  unfold Pipeline.clean_data_transaction. rewrite delete_all.
  destruct (Pipeline.fetchall (group_list source) "group_list")
    as [group_rows|e]; [| done].
  destruct (Pipeline.fetchall (group_member3 source) "group_member3")
    as [member_rows|e]; [| done].
  cbn. apply (migrate_members_flush _ _ []).
Qed.

End session.

Section imports.

Context (account_id : string).

Lemma migrate_groups_members (group_rows : list (list sqlval))
    (session : analysis_db) :
  members (Pipeline.migrate_groups group_rows session) = members session.
Proof.
  unfold Pipeline.migrate_groups. revert session.
  induction group_rows as [|row rows IH]; intros session; [done |].
  cbn [fold_left]. rewrite IH. by destruct (5 <? length row)%nat.
Qed.

Lemma spec_etl_members_not_self (rows : list (list sqlval)) (m : Member.t) :
  m ∈ spec_etl_members account_id rows -> Member.user_id m <> account_id.
Proof.
  unfold spec_etl_members. intros (row & _ & Hm)%list_elem_of_omap.
  unfold spec_etl_member in Hm.
  destruct (_ || _); [done |].
  destruct (String.eqb _ account_id) eqn:Hself; [done |].
  injection Hm as <-. cbn. by apply String.eqb_neq.
Qed.

(** What a successful raw-table transaction leaves: exactly the
    members the rows give rise to. *)
Lemma clean_data_transaction_members (source : source_db)
    (session session' : analysis_db) :
  Pipeline.clean_data_transaction source account_id session = Ok session' ->
  exists member_rows,
    group_member3 source = Some member_rows
    /\ (forall m, m ∈ spec_etl_members account_id member_rows ->
          members session' !! member_key m = Some (member_cells m))
    /\ (forall k cells, members session' !! k = Some cells ->
          exists m, m ∈ spec_etl_members account_id member_rows
                    /\ k = member_key m).
Proof.
  rewrite clean_data_transaction_spec. intros Hrun.
  destruct (group_list source) as [group_rows|]; [| done].
  destruct (group_member3 source) as [member_rows|]; [| done].
  cbn in Hrun. apply bulk_save_objects_ok in Hrun as (_ & _ & Hin & Hout).
  exists member_rows. split; [done |]. split; [done |].
  intros k cells Hk. destruct (Hout _ _ Hk) as [Hold | Hnew]; [| done].
  by rewrite migrate_groups_members in Hold.
Qed.

Lemma clean_data_transaction_no_self (source : source_db)
    (session session' : analysis_db) :
  Pipeline.clean_data_transaction source account_id session = Ok session' ->
  no_self_member account_id session'.
Proof.
  intros (member_rows & _ & _ & Hout)%clean_data_transaction_members.
  intros g u cells Hk. destruct (Hout _ _ Hk) as (m & Hm & Hkey).
  injection Hkey as _ ->. by eapply spec_etl_members_not_self.
Qed.

Lemma merge_member_no_self (m : Member.t) (session : analysis_db) :
  Member.user_id m <> account_id ->
  no_self_member account_id session ->
  no_self_member account_id (merge_member m session).
Proof.
  intros Hm Hs g u cells. rewrite merge_member_lookup.
  case_decide as Hkey; [| apply Hs].
  intros _. injection Hkey as _ <-. done.
Qed.

Lemma import_members_no_self (gid : string) (ms : list (string * json))
    (session session' : analysis_db) :
  import_members account_id gid ms session = Ok session' ->
  no_self_member account_id session ->
  no_self_member account_id session'.
Proof.
  revert session. induction ms as [|[uid u_info] ms IH]; intros session Hrun Hs.
  - by injection Hrun as <-.
  - cbn [import_members] in Hrun.
    destruct (String.eqb uid account_id) eqn:Hself; [by eapply IH |].
    bind_ok Hrun. eapply IH; [done |].
    apply merge_member_no_self; [| done]. by apply String.eqb_neq.
Qed.

Lemma import_groups_no_self (data : list (string * json))
    (session session' : analysis_db) :
  import_groups account_id data session = Ok session' ->
  no_self_member account_id session ->
  no_self_member account_id session'.
Proof.
  revert session. induction data as [|[gid g_info] data IH];
    intros session Hrun Hs.
  - by injection Hrun as <-.
  - cbn [import_groups] in Hrun. bind_ok Hrun.
    eapply IH; [done |]. by eapply import_members_no_self.
Qed.

Lemma process_json_transaction_no_self (data : json)
    (session session' : analysis_db) :
  process_json_transaction data account_id session = Ok session' ->
  no_self_member account_id session'.
Proof.
  unfold process_json_transaction. rewrite delete_all. intros Hrun.
  bind_ok Hrun. eapply import_groups_no_self; [done |].
  intros g u cells Hk. done.
Qed.

(** A run either commits the session of its transaction or leaves the
    stored rows as they were; the transaction itself starts from the
    emptied tables. *)
Lemma run_import_cases (src : import_source) (db : analysis_db) :
  (exists session,
      run_import src account_id db = (session, Ok tt)
      /\ forall db', run_import src account_id db' = (session, Ok tt))
  \/ (exists e,
        run_import src account_id db = (db, Raise e)
        /\ forall db', run_import src account_id db' = (db', Raise e)).
Proof.
  destruct src as [source | data]; cbn [run_import].
  - unfold Pipeline.clean_data_to_analysis_db.
    destruct (Pipeline.clean_data_transaction source account_id db)
      as [session|e] eqn:Hrun.
    + left. exists session. split; [done |]. intros db'.
      rewrite clean_data_transaction_spec in *. by rewrite Hrun.
    + right. eexists. split; [done |]. intros db'.
      rewrite clean_data_transaction_spec in *. by rewrite Hrun.
  - unfold process_json.
    destruct (process_json_transaction data account_id db)
      as [session|e] eqn:Hrun.
    + left. exists session. split; [done |]. intros db'.
      unfold process_json_transaction in *. rewrite delete_all in *.
      by rewrite Hrun.
    + right. eexists. split; [done |]. intros db'.
      unfold process_json_transaction in *. rewrite delete_all in *.
      by rewrite Hrun.
Qed.

End imports.

(** C2. After an import that completes, by the raw-table ETL or by the
    structured JSON route, no Member row of the account's schema has the
    account's own identifier as [user_id], whatever the source holds and
    whatever was stored before. *)
Theorem import_excludes_self
    (src : import_source) (account_id : string) (db db' : analysis_db) :
  run_import src account_id db = (db', Ok tt) ->
  no_self_member account_id db'.
Proof.
  destruct src as [source | data]; cbn [run_import].
  - unfold Pipeline.clean_data_to_analysis_db.
    destruct (Pipeline.clean_data_transaction source account_id db)
      as [session|e] eqn:Hrun; [| done].
    intros [= <-]. by eapply clean_data_transaction_no_self.
  - unfold process_json.
    destruct (process_json_transaction data account_id db)
      as [session|e] eqn:Hrun; [| done].
    intros [= <-]. by eapply process_json_transaction_no_self.
Qed.

Lemma import_excludes_self_witness :
  (exists row, group_member3 Sample.tables = Some row
               /\ Sample.member_row SqlNull (SqlText "Me") (SqlInt 1)
                    (SqlInt 1000) ∈ row)
  /\ no_self_member "1000"
       (run_import (RawTables Sample.tables) "1000" empty_db).1
  /\ no_self_member "1000"
       (run_import (Structured Sample.payload) "1000" empty_db).1.
Proof.
  split; [| split].
  - eexists. split; [reflexivity |].
    do 3 apply list_elem_of_further. apply list_elem_of_here.
  - apply (import_excludes_self (RawTables Sample.tables) "1000" empty_db).
    vm_compute. reflexivity.
  - apply (import_excludes_self (Structured Sample.payload) "1000" empty_db).
    vm_compute. reflexivity.
Defined.

(** C3. Importing the same source twice in succession leaves the same
    Group/Member set as importing it once, and an import that completes
    after an earlier import of another source leaves exactly what it
    leaves on an empty schema: nothing of the earlier import remains. *)
Theorem import_overwrites
    (src prior : import_source) (account_id : string) (db : analysis_db) :
  (run_import src account_id (run_import src account_id db).1).1
  = (run_import src account_id db).1
  /\ ((run_import src account_id (run_import prior account_id db).1).2 = Ok tt ->
      run_import src account_id (run_import prior account_id db).1
      = run_import src account_id empty_db).
Proof.
  split.
  - destruct (run_import_cases account_id src db)
      as [(session & Hrun & Hany) | (e & Hrun & Hany)].
    + by rewrite Hrun, Hany.
    + by rewrite Hrun, Hany.
  - intros Hok.
    destruct (run_import_cases account_id src
                (run_import prior account_id db).1)
      as [(session & Hrun & Hany) | (e & Hrun & Hany)].
    + by rewrite Hrun, Hany.
    + by rewrite Hrun in Hok.
Qed.

Lemma import_overwrites_witness :
  run_import (Structured Sample.payload) "1000"
    (run_import (RawTables Sample.tables) "1000" empty_db).1
  = run_import (Structured Sample.payload) "1000" empty_db
  /\ (run_import (RawTables Sample.tables) "1000"
        (run_import (RawTables Sample.tables) "1000" empty_db).1).1
     = (run_import (RawTables Sample.tables) "1000" empty_db).1.
Proof.
  destruct (import_overwrites (Structured Sample.payload)
              (RawTables Sample.tables) "1000" empty_db) as [_ Hreplace].
  destruct (import_overwrites (RawTables Sample.tables)
              (RawTables Sample.tables) "1000" empty_db) as [Hidem _].
  split; [| exact Hidem].
  apply Hreplace. vm_compute. reflexivity.
Defined.

(** The raw-table ETL stores, for every row it keeps, the user name of
    column 1 and as nickname column 0 when that is non-empty, else the
    user name. *)
Lemma clean_data_nickname_fallback
    (source : source_db) (account_id : string) (db db' : analysis_db)
    (member_rows : list (list sqlval)) (row : list sqlval) (m : Member.t) :
  Pipeline.clean_data_to_analysis_db source account_id db = (db', Ok tt) ->
  group_member3 source = Some member_rows ->
  row ∈ member_rows ->
  spec_etl_member account_id row = Some m ->
  members db' !! (py_str (Pipeline.col 2 row), py_str (Pipeline.col 5 row))
  = Some (text_affinity (Pipeline.col 1 row),
          text_affinity (if truthy (Pipeline.col 0 row)
                         then Pipeline.col 0 row else Pipeline.col 1 row)).
Proof.
  unfold Pipeline.clean_data_to_analysis_db.
  destruct (Pipeline.clean_data_transaction source account_id db)
    as [session|e] eqn:Hrun; [| done].
  intros [= <-] Hrows Hrow Hm.
  apply clean_data_transaction_members in Hrun as (rows' & Hrows' & Hin & _).
  rewrite Hrows in Hrows'. injection Hrows' as <-.
  assert (m ∈ spec_etl_members account_id member_rows) as Hmem.
  { apply list_elem_of_omap. by exists row. }
  specialize (Hin m Hmem). unfold spec_etl_member in Hm.
  destruct (_ || _); [done |].
  destruct (String.eqb _ account_id); [done |].
  by injection Hm as <-.
Qed.

(** C8 at a structured payload whose member U1 has a [user_name] and no
    [user_group_name]: the import completes and the stored nickname is
    the empty string, not the user name. *)
Theorem process_json_missing_nickname :
  let run := process_json Sample.payload "1000" empty_db in
  run.2 = Ok tt
  /\ members run.1 !! ("G9"%string, "U1"%string)
     = Some (SqlText "Bob", SqlText "")
  /\ SqlText "" <> SqlText "Bob".
Proof. split; [| split]; [vm_compute; reflexivity .. | discriminate]. Qed.

(** ** The analysis queries *)

Section queries.

Context (db : analysis_db).

Lemma elem_of_member_rows (r : Member.t) :
  r ∈ member_rows db
  <-> members db !! member_key r
      = Some (Member.user_name r, Member.user_group_name r).
Proof.
  unfold member_rows. rewrite list_elem_of_fmap. split.
  - intros ([[g u] [n k]] & -> & Hin). by apply elem_of_map_to_list in Hin.
  - intros Hr. destruct r as [g u n k].
    exists ((g, u), (n, k)). split; [done |]. by apply elem_of_map_to_list.
Qed.

Lemma member_rows_keys :
  member_key <$> member_rows db = (map_to_list (members db)).*1.
Proof.
  unfold member_rows. rewrite <- list_fmap_compose.
  apply list_fmap_ext. by intros i [[g u] [n k]] _.
Qed.

Lemma NoDup_member_rows_keys : NoDup (member_key <$> member_rows db).
Proof. rewrite member_rows_keys. apply NoDup_fst_map_to_list. Qed.

Lemma is_member_row (g u : string) :
  is_member db g u
  <-> exists r, r ∈ member_rows db
                /\ Member.group_id r = g /\ Member.user_id r = u.
Proof.
  split.
  - intros [[n k] Hk]. exists (Member.mk g u n k).
    split; [by apply elem_of_member_rows | done].
  - intros (r & Hr & <- & <-). apply elem_of_member_rows in Hr. by eexists.
Qed.

Lemma elem_of_groups_of (g u : string) :
  g ∈ groups_of db u <-> is_member db g u.
Proof.
  unfold groups_of, is_member. rewrite elem_of_map. split.
  - intros ([g' u'] & -> & [Hu Hdom]%elem_of_filter).
    cbn in Hu. subst u'. by apply elem_of_dom in Hdom.
  - intros Hk. exists (g, u). split; [done |].
    apply elem_of_filter. split; [done | by apply elem_of_dom].
Qed.

End queries.

Section grouping.

(** Rows with distinct keys: the rows of one user lie in distinct
    groups. *)
Lemma NoDup_user_groups (rows : list Member.t) (u : string) :
  NoDup (member_key <$> rows) ->
  NoDup (Member.group_id
           <$> filter (fun r => Member.user_id r = u) rows).
Proof.
  induction rows as [|r rows IH]; [constructor |].
  rewrite fmap_cons, NoDup_cons. intros [Hr Hrows].
  rewrite filter_cons. case_decide as Hu; [| by apply IH].
  rewrite fmap_cons, NoDup_cons. split; [| by apply IH].
  intros (r' & Hg & [Hu' Hr']%list_elem_of_filter)%list_elem_of_fmap.
  apply Hr, list_elem_of_fmap. exists r'. split; [| done].
  unfold member_key. congruence.
Qed.

Lemma elem_of_group_by_user_id (rows : list Member.t) (u : string)
    (rs : list Member.t) :
  (u, rs) ∈ group_by_user_id rows
  <-> (exists r, r ∈ rows /\ Member.user_id r = u)
      /\ rs = filter (fun r => Member.user_id r = u) rows.
Proof.
  unfold group_by_user_id. rewrite list_elem_of_fmap. split.
  - intros (u' & [= -> ->] & Hu'). split; [| done].
    apply elem_of_remove_dups, list_elem_of_fmap in Hu' as (r & -> & Hr).
    by exists r.
  - intros [(r & Hr & Hu) ->]. exists u. split; [done |].
    apply elem_of_remove_dups, list_elem_of_fmap. by exists r.
Qed.

Lemma NoDup_group_by_user_id (rows : list Member.t) :
  NoDup ((group_by_user_id rows).*1).
Proof.
  unfold group_by_user_id. rewrite <- list_fmap_compose.
  rewrite (list_fmap_ext _ id); [| done].
  rewrite list_fmap_id. apply NoDup_remove_dups.
Qed.

End grouping.

#[global] Instance count_desc_total : Total count_desc.
Proof. intros x y. unfold count_desc. lia. Qed.

#[global] Instance count_desc_trans : Transitive count_desc.
Proof. intros x y z. unfold count_desc. lia. Qed.

Section frequent_users.

Context (pick : list Member.t -> nat) (db : analysis_db).

(** The rows of a user's group are as many as the user's distinct
    groups: the key [(group_id, user_id)] is unique. *)
Lemma count_group_id_user (u : string) :
  count_group_id (filter (fun r => Member.user_id r = u) (member_rows db))
  = group_count db u.
Proof.
  unfold count_group_id, group_count. f_equal.
  set (rs := filter _ _).
  rewrite <- (length_fmap Member.group_id rs).
  rewrite <- (size_list_to_set (C := gset string));
    [| apply NoDup_user_groups, NoDup_member_rows_keys].
  f_equal. apply set_eq. intros g.
  rewrite elem_of_list_to_set, elem_of_groups_of, is_member_row.
  rewrite list_elem_of_fmap. subst rs. split.
  - intros (r & -> & [Hu Hr]%list_elem_of_filter). by exists r.
  - intros (r & Hr & <- & Hu). exists r. split; [done |].
    by apply list_elem_of_filter.
Qed.

Lemma is_user_row (u : string) :
  is_user db u <-> exists r, r ∈ member_rows db /\ Member.user_id r = u.
Proof.
  unfold is_user. split.
  - intros (g & (r & Hr & _ & Hu)%is_member_row). by exists r.
  - intros (r & Hr & Hu). exists (Member.group_id r).
    apply is_member_row. by exists r.
Qed.

Lemma bind_int_cases (z : Z) :
  (- 2 ^ 63 <= z < 2 ^ 63 /\ bind_int z = Ok z)
  \/ (~ - 2 ^ 63 <= z < 2 ^ 63
      /\ bind_int z
         = Raise (mk_exn OverflowError None
                    "Python int too large to convert to SQLite INTEGER")).
Proof.
  unfold bind_int.
  destruct (- 2 ^ 63 <=? z) eqn:Hlo; destruct (z <? 2 ^ 63) eqn:Hhi; cbn;
    rewrite ?Z.leb_le, ?Z.leb_gt, ?Z.ltb_lt, ?Z.ltb_ge in *;
    [left | right ..]; (split; [lia | done]).
Qed.

Lemma get_frequent_users_in_range
    (min_groups : Z) (rows : list frequent_user) :
  get_frequent_users pick db min_groups = Ok rows ->
  - 2 ^ 63 <= min_groups < 2 ^ 63.
Proof.
  unfold get_frequent_users.
  destruct (bind_int_cases min_groups) as [[Hin _] | [_ ->]]; done.
Qed.

Lemma get_frequent_users_ok (min_groups : Z) :
  - 2 ^ 63 <= min_groups < 2 ^ 63 ->
  exists rows, get_frequent_users pick db min_groups = Ok rows.
Proof.
  intros Hin. unfold get_frequent_users.
  destruct (bind_int_cases min_groups) as [[_ ->] | [Hout _]]; [| done].
  cbn. by eexists.
Qed.

Lemma get_frequent_users_out_of_range (min_groups : Z) :
  ~ - 2 ^ 63 <= min_groups < 2 ^ 63 ->
  get_frequent_users pick db min_groups
  = Raise (mk_exn OverflowError None
             "Python int too large to convert to SQLite INTEGER").
Proof.
  intros Hout. unfold get_frequent_users.
  destruct (bind_int_cases min_groups) as [[Hin _] | [_ ->]]; done.
Qed.

Lemma elem_of_get_frequent_users
    (min_groups : Z) (rows : list frequent_user) (x : frequent_user) :
  get_frequent_users pick db min_groups = Ok rows ->
  x ∈ rows
  <-> is_user db (fu_user_id x)
      /\ fu_user_name x
         = bare_user_name pick
             (filter (fun r => Member.user_id r = fu_user_id x)
                     (member_rows db))
      /\ fu_group_count x = group_count db (fu_user_id x)
      /\ min_groups <= fu_group_count x.
Proof.
  unfold get_frequent_users.
  destruct (bind_int_cases min_groups) as [[_ ->] | [_ ->]]; [| done].
  cbn. intros [= <-]. rewrite merge_sort_Permutation.
  rewrite list_elem_of_filter, list_elem_of_fmap. split.
  - intros [Hmin ([u rs] & -> & [Hu ->]%elem_of_group_by_user_id)].
    cbn in *. rewrite count_group_id_user in *.
    split; [by apply is_user_row | done].
  - intros (Hu & Hn & Hc & Hmin). split; [done |].
    exists (fu_user_id x,
            filter (fun r => Member.user_id r = fu_user_id x)
                   (member_rows db)).
    split.
    + destruct x as [u n c]. cbn in *. subst n c.
      by rewrite count_group_id_user.
    + apply elem_of_group_by_user_id. split; [| done].
      by apply is_user_row.
Qed.

Lemma get_frequent_users_sorted
    (min_groups : Z) (rows : list frequent_user) :
  get_frequent_users pick db min_groups = Ok rows ->
  StronglySorted count_desc rows.
Proof.
  unfold get_frequent_users.
  destruct (bind_int_cases min_groups) as [[_ ->] | [_ ->]]; [| done].
  cbn. intros [= <-]. apply (StronglySorted_merge_sort _).
Qed.

Lemma get_frequent_users_NoDup
    (min_groups : Z) (rows : list frequent_user) :
  get_frequent_users pick db min_groups = Ok rows ->
  NoDup (fu_user_id <$> rows).
Proof.
  unfold get_frequent_users.
  destruct (bind_int_cases min_groups) as [[_ ->] | [_ ->]]; [| done].
  cbn. intros [= <-]. rewrite merge_sort_Permutation.
  eapply sublist_NoDup; [| apply fmap_sublist, sublist_filter].
  rewrite <- list_fmap_compose.
  rewrite (list_fmap_ext _ fst); [apply NoDup_group_by_user_id |].
  by intros i [u rs] _.
Qed.

End frequent_users.

(** C6. For a [min_groups] that fits a 64-bit integer,
    [get_frequent_users] returns exactly the users whose number of
    distinct groups is at least [min_groups], each once and with that
    number as its count, sorted by the count in descending order,
    whichever row the engine takes the name from. For any other
    [min_groups] the driver cannot bind the parameter and the call
    raises [OverflowError]. *)
Theorem get_frequent_users_spec
    (pick : list Member.t -> nat) (db : analysis_db) (min_groups : Z) :
  (- 2 ^ 63 <= min_groups < 2 ^ 63 ->
   exists rows,
     get_frequent_users pick db min_groups = Ok rows
     /\ (forall (u : string) (c : Z),
           (exists n, mk_frequent_user u n c ∈ rows)
           <-> is_user db u /\ c = group_count db u /\ min_groups <= c)
     /\ StronglySorted count_desc rows
     /\ NoDup (fu_user_id <$> rows))
  /\ (~ - 2 ^ 63 <= min_groups < 2 ^ 63 ->
      exists msg,
        get_frequent_users pick db min_groups
        = Raise (mk_exn OverflowError None msg)).
Proof.
  split.
  - intros Hin. destruct (get_frequent_users_ok pick db _ Hin) as [rows Hrows].
    exists rows. split; [done |]. split; [| split].
    + intros u c. rewrite exist_proper
        by (intros n; apply (elem_of_get_frequent_users _ _ _ _ _ Hrows)).
      cbn. split.
      * by intros (n & Hu & _ & Hc & Hmin).
      * intros (Hu & Hc & Hmin). eexists. by repeat split.
    + by eapply get_frequent_users_sorted.
    + by eapply get_frequent_users_NoDup.
  - intros Hout. eexists. by apply get_frequent_users_out_of_range.
Qed.

Lemma get_frequent_users_spec_witness :
  let db := (run_import (RawTables Sample.tables) "1000" empty_db).1 in
  exists rows,
    get_frequent_users (fun _ => 0%nat) db 2 = Ok rows
    /\ (forall (u : string) (c : Z),
          (exists n, mk_frequent_user u n c ∈ rows)
          <-> is_user db u /\ c = group_count db u /\ 2 <= c)
    /\ StronglySorted count_desc rows
    /\ NoDup (fu_user_id <$> rows).
Proof.
  intros db.
  apply (proj1 (get_frequent_users_spec (fun _ => 0%nat) db 2)). lia.
Defined.

(** The users A, B, C and D all have at least [- 2 ^ 63 - 1] groups,
    yet with that [min_groups] no list is returned: the call raises. *)
Lemma get_frequent_users_overflow :
  let db := (run_import (RawTables Sample.tables) "1000" empty_db).1 in
  is_user db "B"
  /\ - 2 ^ 63 - 1 <= group_count db "B"
  /\ (forall pick rows,
        get_frequent_users pick db (- 2 ^ 63 - 1) <> Ok rows)
  /\ get_frequent_users (fun _ => 0%nat) db (- 2 ^ 63 - 1)
     = Raise (mk_exn OverflowError None
                "Python int too large to convert to SQLite INTEGER").
Proof.
  split; [| split; [| split]].
  - exists "1"%string. eexists. vm_compute. reflexivity.
  - vm_compute. discriminate.
  - intros pick rows Hrows.
    apply get_frequent_users_in_range in Hrows. lia.
  - apply get_frequent_users_out_of_range. lia.
Qed.

(** The reported name depends on the row the engine takes: for a user
    stored under two names, either can be the answer. *)
Example bare_user_name_choice :
  let rs := [Member.mk "1" "U" (SqlText "old") SqlNull;
             Member.mk "2" "U" (SqlText "new") SqlNull] in
  bare_user_name (fun _ => 0%nat) rs = SqlText "old"
  /\ bare_user_name (fun _ => 1%nat) rs = SqlText "new"
  /\ bare_user_name (fun _ => 5%nat) rs = SqlText "new".
Proof. repeat split. Qed.

Example get_frequent_users_scenario :
  let db := (run_import (RawTables Sample.tables) "1000" empty_db).1 in
  (fun x => (fu_user_id x, fu_group_count x))
    <$> match get_frequent_users (fun _ => 0%nat) db 2 with
        | Ok rows => rows
        | Raise _ => []
        end
  ≡ₚ [("B"%string, 2); ("C"%string, 2)].
Proof. vm_compute. apply perm_swap. Qed.

(** ** Intersection of groups *)

Section intersection.

Context (db : analysis_db).

Lemma remove_dups_length_le (l : list string) :
  (length (remove_dups l) <= length l)%nat.
Proof.
  induction l as [|x l IH]; [done |]. cbn [remove_dups].
  case_decide; cbn [length]; lia.
Qed.

Lemma remove_dups_length_lt (l : list string) :
  ~ NoDup l -> (length (remove_dups l) < length l)%nat.
Proof.
  induction l as [|x l IH]; intros Hdup.
  - destruct Hdup. constructor.
  - cbn [remove_dups]. case_decide as Hx; cbn [length].
    + pose proof (remove_dups_length_le l). lia.
    + apply Nat.succ_lt_mono with (n := length (remove_dups l)).
      apply IH. intros Hl. apply Hdup. by constructor.
Qed.

Lemma filter_none {A} (P : A -> Prop) `{forall x, Decision (P x)}
    (l : list A) :
  (forall x, x ∈ l -> ~ P x) -> filter P l = [].
Proof.
  induction l as [|x l IH]; intros Hall; [done |].
  rewrite filter_cons, decide_False by (apply Hall, list_elem_of_here).
  apply IH. intros y Hy. by apply Hall, list_elem_of_further.
Qed.

(** The groups seen in one user's rows of the filtered table. *)
Lemma elem_of_selected_groups (group_ids : list string) (u g : string) :
  g ∈ Member.group_id
        <$> filter (fun r => Member.user_id r = u)
              (filter (fun r => Member.group_id r ∈ group_ids)
                      (member_rows db))
  <-> g ∈ group_ids /\ is_member db g u.
Proof.
  rewrite list_elem_of_fmap, is_member_row. split.
  - intros (r & -> & [Hu [Hg Hr]%list_elem_of_filter]%list_elem_of_filter).
    split; [done |]. by exists r.
  - intros (Hg & r & Hr & <- & Hu). exists r. split; [done |].
    by repeat (apply list_elem_of_filter; split).
Qed.

Lemma count_distinct_selected_le (group_ids : list string) (u : string) :
  (length (remove_dups
             (Member.group_id
                <$> filter (fun r => Member.user_id r = u)
                      (filter (fun r => Member.group_id r ∈ group_ids)
                              (member_rows db))))
   <= length (remove_dups group_ids))%nat.
Proof.
  apply submseteq_length, NoDup_submseteq; [apply NoDup_remove_dups |].
  intros g Hg. apply elem_of_remove_dups.
  apply elem_of_remove_dups, elem_of_selected_groups in Hg. tauto.
Qed.

(** A user is reported exactly when the number of listed groups the
    user belongs to equals the length of the list. *)
Lemma elem_of_analyze_intersection (group_ids : list string) (u : string) :
  u ∈ (analyze_intersection db group_ids).*1
  <-> group_ids <> []
      /\ (exists g, g ∈ group_ids /\ is_member db g u)
      /\ length (remove_dups
                   (Member.group_id
                      <$> filter (fun r => Member.user_id r = u)
                            (filter (fun r => Member.group_id r ∈ group_ids)
                                    (member_rows db))))
         = length group_ids.
Proof.
  unfold analyze_intersection. destruct group_ids as [|g0 gs].
  { split; [by intros ?%elem_of_nil | by intros [? _]]. }
  set (group_ids := g0 :: gs). rewrite list_elem_of_fmap. split.
  - intros ([u' n] & -> & ([u'' rs] & [= -> ->] & Hsel)%list_elem_of_fmap).
    apply list_elem_of_filter in Hsel as [Hcount Hgroup].
    apply elem_of_group_by_user_id in Hgroup as [(r & Hr & Hu) ->].
    split; [done |]. split.
    + apply list_elem_of_filter in Hr as [Hg Hr].
      exists (Member.group_id r). split; [done |].
      apply is_member_row. by exists r.
    + cbn [fst]. unfold count_distinct_group_id in Hcount.
      apply Nat2Z.inj in Hcount. exact Hcount.
  - intros (_ & (g & Hg & (r & Hr & <- & <-)%is_member_row) & Hcount).
    set (rs := filter (fun r' => Member.user_id r' = Member.user_id r)
                 (filter (fun r' => Member.group_id r' ∈ group_ids)
                         (member_rows db))) in *.
    exists (Member.user_id r, sql_max (Member.user_name <$> rs)).
    split; [done |]. apply list_elem_of_fmap.
    exists (Member.user_id r, rs). split; [done |].
    apply list_elem_of_filter. split.
    + unfold count_distinct_group_id. f_equal. exact Hcount.
    + apply elem_of_group_by_user_id. split; [| done].
      exists r. split; [| done]. by apply list_elem_of_filter.
Qed.

(** For a list without repetition the query is the intersection of
    the listed groups. *)
Lemma analyze_intersection_distinct (group_ids : list string) (u : string) :
  NoDup group_ids ->
  u ∈ (analyze_intersection db group_ids).*1
  <-> group_ids <> [] /\ forall g, g ∈ group_ids -> is_member db g u.
Proof.
  intros Hnodup. rewrite elem_of_analyze_intersection.
  set (G := Member.group_id
              <$> filter (fun r => Member.user_id r = u)
                    (filter (fun r => Member.group_id r ∈ group_ids)
                            (member_rows db))).
  split.
  - intros (Hne & _ & Hcount). split; [done |]. intros g Hg.
    assert (remove_dups G ≡ₚ group_ids) as Hperm.
    { apply submseteq_length_Permutation; [| lia].
      apply NoDup_submseteq; [apply NoDup_remove_dups |].
      intros g' Hg'. rewrite elem_of_remove_dups in Hg'.
      subst G. rewrite elem_of_selected_groups in Hg'. tauto. }
    rewrite <- Hperm in Hg. rewrite elem_of_remove_dups in Hg.
    subst G. rewrite elem_of_selected_groups in Hg. tauto.
  - intros [Hne Hall]. split; [done |]. split.
    + destruct group_ids as [|g0 gs]; [done |].
      exists g0. split; [apply list_elem_of_here |].
      apply Hall, list_elem_of_here.
    + apply Permutation_length, NoDup_Permutation;
        [apply NoDup_remove_dups | done |].
      intros g. rewrite elem_of_remove_dups. subst G.
      rewrite elem_of_selected_groups. split; [tauto |]. auto.
Qed.

Lemma analyze_intersection_single (g u : string) :
  u ∈ (analyze_intersection db [g]).*1 <-> is_member db g u.
Proof.
  rewrite analyze_intersection_distinct by apply NoDup_singleton.
  split.
  - intros [_ Hall]. apply Hall, list_elem_of_here.
  - intros Hg. split; [done |]. by intros g' ->%list_elem_of_singleton.
Qed.

(** Every user is reported at most once. *)
Lemma NoDup_analyze_intersection (group_ids : list string) :
  NoDup (analyze_intersection db group_ids).*1.
Proof.
  unfold analyze_intersection. destruct group_ids as [|g0 gs]; [constructor |].
  set (grouped := group_by_user_id _).
  rewrite <- list_fmap_compose.
  erewrite (list_fmap_ext _ fst); [| by intros i [u rs] _].
  eapply sublist_NoDup; [apply NoDup_group_by_user_id |].
  apply fmap_sublist, sublist_filter.
Qed.

End intersection.

(** C10. When [group_ids] lists a group id more than once the result of
    [analyze_intersection] is empty: a reported user would need as many
    distinct groups among the listed ones as the list is long. *)
Theorem analyze_intersection_repeated_id
    (db : analysis_db) (group_ids : list string) :
  ~ NoDup group_ids -> analyze_intersection db group_ids = [].
Proof.
  intros Hdup. apply fmap_nil_inv with (f := fst).
  destruct ((analyze_intersection db group_ids).*1) as [|u us] eqn:Hres;
    [done |].
  assert (u ∈ (analyze_intersection db group_ids).*1) as Hu.
  { rewrite Hres. apply list_elem_of_here. }
  apply elem_of_analyze_intersection in Hu as (_ & _ & Hcount).
  pose proof (count_distinct_selected_le db group_ids u).
  pose proof (remove_dups_length_lt group_ids Hdup). lia.
Qed.

Lemma analyze_intersection_repeated_id_witness :
  let db := (run_import (RawTables Sample.tables) "1000" empty_db).1 in
  is_member db "1" "A"
  /\ analyze_intersection db ["1"; "1"]%string = [].
Proof.
  split.
  - eexists. vm_compute. reflexivity.
  - apply analyze_intersection_repeated_id.
    intros Hnodup. apply NoDup_cons in Hnodup as [Hnot _].
    apply Hnot, list_elem_of_here.
Defined.

(** C5, as the code has it. For a list of group ids without repetition
    [analyze_intersection] returns exactly the users who are members of
    every listed group, each once; the empty list gives the empty result
    and a one-element list [[g]] gives exactly the members of [g]. *)
Theorem analyze_intersection_spec (db : analysis_db) (group_ids : list string) :
  NoDup group_ids ->
  (forall u,
      u ∈ (analyze_intersection db group_ids).*1
      <-> group_ids <> [] /\ forall g, g ∈ group_ids -> is_member db g u)
  /\ NoDup (analyze_intersection db group_ids).*1
  /\ analyze_intersection db [] = []
  /\ (forall g u,
        u ∈ (analyze_intersection db [g]).*1 <-> is_member db g u).
Proof.
  intros Hnodup. split; [| split; [| split]].
  - intros u. by apply analyze_intersection_distinct.
  - apply NoDup_analyze_intersection.
  - reflexivity.
  - apply analyze_intersection_single.
Qed.

Lemma analyze_intersection_spec_witness :
  let db := (run_import (RawTables Sample.tables) "1000" empty_db).1 in
  (forall u,
      u ∈ (analyze_intersection db ["1"; "2"]%string).*1
      <-> is_member db "1" u /\ is_member db "2" u)
  /\ (analyze_intersection db ["1"; "2"]%string).*1 ≡ₚ ["B"; "C"]%string.
Proof.
  intros db.
  destruct (analyze_intersection_spec db ["1"; "2"]%string) as (Hmem & _).
  - apply NoDup_cons. split.
    + intros Hin%list_elem_of_singleton. discriminate Hin.
    + apply NoDup_singleton.
  - split; [| vm_compute; apply perm_swap].
    intros u. rewrite Hmem. split.
    + intros [_ Hall].
      split; apply Hall;
        [apply list_elem_of_here
        | apply list_elem_of_further, list_elem_of_here].
    + intros [H1 H2]. split; [done |]. intros g Hg.
      apply elem_of_cons in Hg as [-> | Hg]; [done |].
      by apply list_elem_of_singleton in Hg as ->.
Defined.

(** With the list [["1"; "1"]] user A is a member of every group of the
    list, and is reported for [["1"]], yet the result is empty. *)
Lemma analyze_intersection_duplicate_ids :
  let db := (run_import (RawTables Sample.tables) "1000" empty_db).1 in
  (forall g, g ∈ ["1"; "1"]%string -> is_member db g "A")
  /\ (analyze_intersection db ["1"%string]).*1
     ≡ₚ ["A"; "B"; "C"]%string
  /\ analyze_intersection db ["1"; "1"]%string = [].
Proof.
  split; [| split].
  - intros g Hg. assert (g = "1"%string) as ->.
    { apply elem_of_cons in Hg as [-> | Hg]; [done |].
      by apply list_elem_of_singleton in Hg. }
    eexists. vm_compute. reflexivity.
  - vm_compute.
    apply (Permutation_cons_append ["A"; "B"]%string "C"%string).
  - vm_compute. reflexivity.
Qed.

Example analyze_intersection_scenario :
  let db := (run_import (RawTables Sample.tables) "1000" empty_db).1 in
  (analyze_intersection db ["1"; "2"]%string).*1 ≡ₚ ["B"; "C"]%string
  /\ analyze_intersection db [] = [].
Proof. split; [vm_compute; apply perm_swap | reflexivity]. Qed.

(* ===================================================================== *)
(** * Part III: further properties of the code                            *)
(* ===================================================================== *)

(** ** Queries *)

Section more_queries.

Context (pick : list Member.t -> nat) (db : analysis_db).

Lemma elem_of_group_rows (g : Group.t) :
  g ∈ group_rows db
  <-> groups db !! Group.group_id g = Some (Group.group_name g).
Proof.
  unfold group_rows. rewrite list_elem_of_fmap. split.
  - intros ([k n] & -> & Hin). by apply elem_of_map_to_list in Hin.
  - intros Hg. destruct g as [k n]. exists (k, n). split; [done |].
    by apply elem_of_map_to_list.
Qed.

Lemma NoDup_group_rows_ids : NoDup (Group.group_id <$> group_rows db).
Proof.
  unfold group_rows. rewrite <- list_fmap_compose.
  rewrite (list_fmap_ext _ fst); [apply NoDup_fst_map_to_list |].
  by intros i [k n] _.
Qed.

(** The users of the target group, as the subquery lists them. *)
Lemma elem_of_target_group_members (group_id u : string) :
  u ∈ Member.user_id
        <$> filter (fun r => Member.group_id r = group_id) (member_rows db)
  <-> is_member db group_id u.
Proof.
  rewrite list_elem_of_fmap, is_member_row. split.
  - intros (r & -> & [Hg Hr]%list_elem_of_filter). by exists r.
  - intros (r & Hr & Hg & Hu). exists r. split; [done |].
    by apply list_elem_of_filter.
Qed.

(** Restricting the rows to the users of the target group keeps all
    the rows of each of these users. *)
Lemma overlap_rows_user (group_id u : string) :
  is_member db group_id u ->
  filter (fun r => Member.user_id r = u)
    (filter (fun r => Member.user_id r
                      ∈ Member.user_id
                          <$> filter (fun r' => Member.group_id r' = group_id)
                                (member_rows db))
            (member_rows db))
  = filter (fun r => Member.user_id r = u) (member_rows db).
Proof.
  intros Hu. apply list_filter_filter_l. intros r ->.
  by apply elem_of_target_group_members.
Qed.

Lemma elem_of_analyze_group_overlap (group_id : string) (x : frequent_user) :
  x ∈ analyze_group_overlap pick db group_id
  <-> is_member db group_id (fu_user_id x)
      /\ fu_user_name x
         = bare_user_name pick
             (filter (fun r => Member.user_id r = fu_user_id x)
                     (member_rows db))
      /\ fu_group_count x = group_count db (fu_user_id x)
      /\ 1 < fu_group_count x.
Proof.
  unfold analyze_group_overlap. rewrite merge_sort_Permutation.
  rewrite list_elem_of_filter, list_elem_of_fmap. split.
  - intros [Hmin ([u rs] & -> & [(r & Hr & Hu) ->]%elem_of_group_by_user_id)].
    apply list_elem_of_filter in Hr as [Htarget Hr].
    change (map Member.user_id ?l) with (Member.user_id <$> l) in *.
    apply elem_of_target_group_members in Htarget. rewrite Hu in Htarget.
    cbn in *. rewrite overlap_rows_user in * by done.
    rewrite count_group_id_user in *. done.
  - intros (Hu & Hn & Hc & Hmin). split; [done |].
    exists (fu_user_id x,
            filter (fun r => Member.user_id r = fu_user_id x)
                   (member_rows db)).
    split.
    + destruct x as [u n c]. cbn in *. subst n c.
      by rewrite count_group_id_user.
    + apply elem_of_group_by_user_id.
      change (map Member.user_id ?l) with (Member.user_id <$> l).
      rewrite overlap_rows_user by done. split; [| done].
      destruct Hu as [cells Hcells].
      exists (Member.mk group_id (fu_user_id x) cells.1 cells.2).
      split; [| done]. apply list_elem_of_filter. split.
      * apply elem_of_target_group_members. by exists cells.
      * apply elem_of_member_rows. cbn. by destruct cells.
Qed.

Lemma NoDup_query_users (rows : list Member.t) (P : frequent_user -> Prop)
    `{forall x, Decision (P x)} :
  NoDup (fu_user_id
           <$> merge_sort count_desc
                 (filter P
                    ((fun '(u, rs) =>
                        mk_frequent_user u (bare_user_name pick rs)
                          (count_group_id rs))
                       <$> group_by_user_id rows))).
Proof.
  rewrite merge_sort_Permutation.
  eapply sublist_NoDup; [| apply fmap_sublist, sublist_filter].
  rewrite <- list_fmap_compose.
  rewrite (list_fmap_ext _ fst); [apply NoDup_group_by_user_id |].
  by intros i [u rs] _.
Qed.

End more_queries.

(** X1. [analyze_group_overlap] returns exactly the members of the
    given group who belong to more than one group, each once, with the
    number of all their groups as count, sorted by that count in
    descending order, whichever row the engine takes the name from. *)
Theorem analyze_group_overlap_spec
    (pick : list Member.t -> nat) (db : analysis_db) (group_id : string) :
  (forall (u : string) (c : Z),
      (exists n,
          mk_frequent_user u n c ∈ analyze_group_overlap pick db group_id)
      <-> is_member db group_id u /\ c = group_count db u /\ 1 < c)
  /\ StronglySorted count_desc (analyze_group_overlap pick db group_id)
  /\ NoDup (fu_user_id <$> analyze_group_overlap pick db group_id).
Proof.
  split; [| split].
  - intros u c. split.
    + intros (n & (Hu & _ & Hc & Hmin)%elem_of_analyze_group_overlap).
      by cbn in *.
    + intros (Hu & Hc & Hmin). eexists.
      apply elem_of_analyze_group_overlap. cbn. by repeat split.
  - apply (StronglySorted_merge_sort _).
  - apply NoDup_query_users.
Qed.

(** X2. The users and counts that [analyze_group_overlap] reports for a
    group are those of the rows of [get_frequent_users] with threshold
    2 whose user is a member of the group: the overlap of a group is
    the part of the frequent users that belongs to the group. The two
    statements may take a user's name from different rows, so the
    names are not compared. *)
Theorem analyze_group_overlap_frequent
    (pick pick' : list Member.t -> nat) (db : analysis_db)
    (group_id : string) :
  exists rows,
    get_frequent_users pick' db 2 = Ok rows
    /\ forall (u : string) (c : Z),
         (exists n,
             mk_frequent_user u n c ∈ analyze_group_overlap pick db group_id)
         <-> (exists n, mk_frequent_user u n c ∈ rows)
             /\ is_member db group_id u.
Proof.
  destruct (get_frequent_users_ok pick' db 2) as [rows Hrows]; [lia |].
  exists rows. split; [done |]. intros u c. split.
  - intros (n & (Hu & _ & Hc & Hmin)%elem_of_analyze_group_overlap).
    cbn in *. split; [| done]. eexists.
    apply (elem_of_get_frequent_users _ _ _ _ _ Hrows). cbn.
    split; [by exists group_id |]. repeat split; [done |]. lia.
  - intros [(n & Hn) Hu].
    apply (elem_of_get_frequent_users _ _ _ _ _ Hrows) in Hn
      as (_ & _ & Hc & Hmin).
    cbn in *. eexists. apply elem_of_analyze_group_overlap. cbn.
    repeat split; [done .. | lia].
Qed.

Section user_groups.

Context (db : analysis_db).

Lemma NoDup_member_rows : NoDup (member_rows db).
Proof. eapply NoDup_fmap_1, NoDup_member_rows_keys. Qed.

Lemma NoDup_group_rows : NoDup (group_rows db).
Proof. eapply NoDup_fmap_1, NoDup_group_rows_ids. Qed.

Lemma elem_of_join_members (g : Group.t) (m : Member.t) :
  (g, m) ∈ join_members db
  <-> g ∈ group_rows db /\ m ∈ member_rows db
      /\ Member.group_id m = Group.group_id g.
Proof.
  unfold join_members. rewrite list_elem_of_bind. split.
  - intros (g' & (m' & Hpair & [Hid Hm]%list_elem_of_filter)%list_elem_of_bind
            & Hg).
    apply list_elem_of_singleton in Hpair as [= -> ->]. done.
  - intros (Hg & Hm & Hid). exists g. split; [| done].
    apply list_elem_of_bind. exists m.
    split; [by apply list_elem_of_singleton | by apply list_elem_of_filter].
Qed.

Lemma NoDup_join_members : NoDup (join_members db).
Proof.
  unfold join_members. apply NoDup_bind; [| | apply NoDup_group_rows].
  - intros g1 g2 [g m] _ _
      (m1 & Hp1 & _)%list_elem_of_bind (m2 & Hp2 & _)%list_elem_of_bind.
    apply list_elem_of_singleton in Hp1, Hp2. congruence.
  - intros g _. apply NoDup_bind.
    + intros m1 m2 [g' m] _ _ Hp1 Hp2.
      apply list_elem_of_singleton in Hp1, Hp2. congruence.
    + intros m _. apply NoDup_singleton.
    + apply NoDup_filter, NoDup_member_rows.
Qed.

Lemma NoDup_omap_inj {A B} (f : A -> option B) (l : list A) :
  (forall x x' y, f x = Some y -> f x' = Some y -> x = x') ->
  NoDup l -> NoDup (omap f l).
Proof.
  intros Hinj. induction 1 as [|x l Hx Hl IH]; [constructor |].
  cbn. destruct (f x) as [y|] eqn:Hfx; [| done].
  constructor; [| done].
  intros (x' & Hx' & Hfx')%list_elem_of_omap.
  by rewrite (Hinj _ _ _ Hfx Hfx') in Hx.
Qed.

Lemma length_omap_le {A B} (f : A -> option B) (l : list A) :
  (length (omap f l) <= length l)%nat.
Proof.
  induction l as [|x l IH]; [done |]. cbn.
  destruct (f x); cbn; lia.
Qed.

(** The join walks the memberships of the user and looks the group of
    each one up by its key. *)
Lemma get_user_group_details_lookup (target_user_id : string) :
  get_user_group_details db target_user_id
  ≡ₚ omap (fun m =>
             n ← groups db !! Member.group_id m;
             Some (n, Member.user_group_name m))
          (filter (fun m => Member.user_id m = target_user_id)
                  (member_rows db)).
Proof.
  unfold get_user_group_details.
  set (rows := filter _ (member_rows db)).
  transitivity
    ((fun '(g, m) => (Group.group_name g, Member.user_group_name m))
       <$> omap (fun m =>
                   n ← groups db !! Member.group_id m;
                   Some (Group.mk (Member.group_id m) n, m))
                rows).
  - apply fmap_Permutation, NoDup_Permutation.
    + apply NoDup_filter, NoDup_join_members.
    + apply NoDup_omap_inj; [| apply NoDup_filter, NoDup_member_rows].
      intros m m' [g m''] Hm Hm'.
      destruct (groups db !! Member.group_id m); [| done].
      destruct (groups db !! Member.group_id m'); [| done].
      cbn in *. congruence.
    + intros [g m]. rewrite list_elem_of_filter, elem_of_join_members.
      rewrite list_elem_of_omap, elem_of_group_rows. split.
      * intros (Hu & Hg & Hm & Hid). exists m. split.
        -- by apply list_elem_of_filter.
        -- rewrite Hid, Hg. cbn. by destruct g.
      * intros (m' & [Hu Hm']%list_elem_of_filter & Hlook).
        destruct (groups db !! Member.group_id m') as [n|] eqn:Hg; [| done].
        cbn in Hlook. injection Hlook as <- <-. cbn. done.
  - rewrite list_fmap_omap.
    erewrite list_omap_ext; [reflexivity |].
    apply Forall_Forall2_diag, Forall_forall. intros m _.
    by destruct (groups db !! Member.group_id m).
Qed.

End user_groups.

(** X3. [get_user_group_details] lists one (group name, nickname) pair
    per membership of the user whose group has a Group row, and no
    other pair: a membership whose group has no Group row is left out,
    so the list is never longer than the number of the user's groups. *)
Theorem get_user_group_details_spec (db : analysis_db) (u : string) :
  get_user_group_details db u
  ≡ₚ omap (fun m =>
             n ← groups db !! Member.group_id m;
             Some (n, Member.user_group_name m))
          (filter (fun m => Member.user_id m = u) (member_rows db))
  /\ (forall gn nick,
        (gn, nick) ∈ get_user_group_details db u
        <-> exists g name,
              groups db !! g = Some gn
              /\ members db !! (g, u) = Some (name, nick))
  /\ Z.of_nat (length (get_user_group_details db u)) <= group_count db u.
Proof.
  pose proof (get_user_group_details_lookup db u) as Hperm.
  split; [done |]. split.
  - intros gn nick. rewrite Hperm, list_elem_of_omap. split.
    + intros (m & [Hu Hm]%list_elem_of_filter & Hlook).
      destruct (groups db !! Member.group_id m) as [n|] eqn:Hg; [| done].
      cbn in Hlook. injection Hlook as <- <-.
      exists (Member.group_id m), (Member.user_name m). split; [done |].
      apply elem_of_member_rows in Hm. by rewrite <- Hu.
    + intros (g & name & Hg & Hm).
      exists (Member.mk g u name nick). split.
      * apply list_elem_of_filter. split; [done |].
        by apply elem_of_member_rows.
      * cbn. by rewrite Hg.
  - rewrite Hperm, <- count_group_id_user. unfold count_group_id.
    apply inj_le, length_omap_le.
Qed.

(** X4. [search_groups] returns at most 20 rows, each a stored Group
    row and no group twice. With an empty query no filter is applied;
    with a non-empty query every returned name matches the pattern,
    and when at most 20 groups match all of them are returned. *)
Theorem search_groups_spec
    (like : string -> sqlval -> bool) (db : analysis_db) (q : string) :
  (length (search_groups like db q) <= 20)%nat
  /\ (forall g, g ∈ search_groups like db q ->
        groups db !! Group.group_id g = Some (Group.group_name g))
  /\ NoDup (Group.group_id <$> search_groups like db q)
  /\ (q = EmptyString -> search_groups like db q = take 20 (group_rows db))
  /\ (q <> EmptyString ->
      (forall g, g ∈ search_groups like db q ->
         like ("%" +:+ q +:+ "%") (Group.group_name g) = true)
      /\ ((length (filter (fun g => like ("%" +:+ q +:+ "%")
                                     (Group.group_name g) = true)
                          (group_rows db)) <= 20)%nat ->
          forall g, g ∈ group_rows db ->
            like ("%" +:+ q +:+ "%") (Group.group_name g) = true ->
            g ∈ search_groups like db q)).
Proof.
  assert (search_groups like db q `sublist_of` group_rows db) as Hsub.
  { unfold search_groups. destruct q; [apply sublist_take |].
    etransitivity; [apply sublist_take | apply sublist_filter]. }
  split; [| split; [| split; [| split]]].
  - unfold search_groups. rewrite length_take. lia.
  - intros g Hg. apply elem_of_group_rows. by eapply elem_of_sublist.
  - eapply sublist_NoDup; [apply NoDup_group_rows_ids |].
    by apply fmap_sublist.
  - by intros ->.
  - intros Hq. destruct q as [|c q']; [done |]. unfold search_groups. split.
    + intros g Hg. eapply elem_of_sublist in Hg; [| apply sublist_take].
      by apply list_elem_of_filter in Hg as [Hlike _].
    + intros Hfew g Hg Hlike. rewrite take_ge by done.
      by apply list_elem_of_filter.
Qed.

Lemma search_groups_spec_witness :
  let db := (run_import (RawTables Sample.tables) "1000" empty_db).1 in
  let like := fun (_ : string) (v : sqlval) =>
                match v with
                | SqlText (String "A" _) => true
                | _ => false
                end in
  Group.group_id <$> search_groups like db "A" = ["1"%string]
  /\ forall g, g ∈ search_groups like db "A" ->
       like "%A%"%string (Group.group_name g) = true.
Proof.
  intros db like.
  destruct (search_groups_spec like db "A") as (_ & _ & _ & _ & Hq).
  split; [vm_compute; reflexivity |].
  apply Hq. discriminate.
Defined.

Section more_intersection.

Context (db : analysis_db).

Lemma group_count_pos (u : string) : is_user db u -> 1 <= group_count db u.
Proof.
  intros [g Hg%elem_of_groups_of]. unfold group_count.
  assert (size (groups_of db u) <> 0%nat); [| lia].
  intros Hsize%size_empty_inv. by apply Hsize in Hg.
Qed.

(** The groups of a list without repetition that all contain the user
    are among the user's groups. *)
Lemma group_count_listed (group_ids : list string) (u : string) :
  NoDup group_ids ->
  (forall g, g ∈ group_ids -> is_member db g u) ->
  Z.of_nat (length group_ids) <= group_count db u.
Proof.
  intros Hnodup Hall. unfold group_count. apply inj_le.
  rewrite <- (size_list_to_set (C := gset string)) by done.
  apply subseteq_size. intros g Hg%elem_of_list_to_set.
  by apply elem_of_groups_of, Hall.
Qed.

(** A user is reported only for a list without repetition. *)
Lemma analyze_intersection_reported (group_ids : list string) (u : string) :
  u ∈ (analyze_intersection db group_ids).*1
  <-> NoDup group_ids /\ group_ids <> []
      /\ forall g, g ∈ group_ids -> is_member db g u.
Proof.
  destruct (decide (NoDup group_ids)) as [Hnodup | Hdup].
  - rewrite analyze_intersection_distinct by done. tauto.
  - split; [| tauto]. intros (_ & _ & Hcount)%elem_of_analyze_intersection.
    pose proof (count_distinct_selected_le db group_ids u).
    pose proof (remove_dups_length_lt group_ids Hdup). lia.
Qed.

Lemma sql_max_fold_cases (vs : list sqlval) (acc : sqlval) :
  let r := fold_left
             (fun acc v => match sql_compare acc v with Lt => v | _ => acc end)
             vs acc in
  r = acc \/ r ∈ vs.
Proof.
  revert acc. induction vs as [|v vs IH]; intros acc; [by left |].
  cbn [fold_left]. destruct (sql_compare acc v).
  - destruct (IH acc) as [-> | Hin]; [by left | right; by constructor].
  - destruct (IH v) as [-> | Hin]; right; [apply list_elem_of_here |].
    by constructor.
  - destruct (IH acc) as [-> | Hin]; [by left | right; by constructor].
Qed.

Lemma sql_max_cases (vs : list sqlval) : sql_max vs = SqlNull \/ sql_max vs ∈ vs.
Proof. apply sql_max_fold_cases. Qed.

End more_intersection.

(** X5. With a threshold of at most 1 that fits a 64-bit integer,
    [get_frequent_users] lists every user of the schema; and raising
    the threshold never adds a user: a user and count reported for a
    larger threshold are reported for every smaller threshold that
    fits, whichever rows the engine takes the names from. *)
Theorem get_frequent_users_threshold
    (pick pick' : list Member.t -> nat) (db : analysis_db)
    (min_groups min_groups' : Z) :
  (- 2 ^ 63 <= min_groups <= 1 ->
   exists rows,
     get_frequent_users pick db min_groups = Ok rows
     /\ forall u, is_user db u <-> u ∈ fu_user_id <$> rows)
  /\ (- 2 ^ 63 <= min_groups <= min_groups' ->
      forall rows',
        get_frequent_users pick' db min_groups' = Ok rows' ->
        exists rows,
          get_frequent_users pick db min_groups = Ok rows
          /\ forall (u : string) (c : Z),
               (exists n, mk_frequent_user u n c ∈ rows') ->
               exists n, mk_frequent_user u n c ∈ rows).
Proof.
  split.
  - intros Hmin.
    destruct (get_frequent_users_ok pick db min_groups) as [rows Hrows];
      [lia |].
    exists rows. split; [done |]. intros u. rewrite list_elem_of_fmap. split.
    + intros Hu.
      exists (mk_frequent_user u
                (bare_user_name pick
                   (filter (fun r => Member.user_id r = u) (member_rows db)))
                (group_count db u)).
      split; [done |]. apply (elem_of_get_frequent_users _ _ _ _ _ Hrows).
      cbn. pose proof (group_count_pos db u Hu). repeat split; [done | lia].
    + intros (x & -> & Hx).
      by apply (elem_of_get_frequent_users _ _ _ _ _ Hrows) in Hx as [Hu _].
  - intros Hle rows' Hrows'.
    pose proof (get_frequent_users_in_range _ _ _ _ Hrows') as Hin'.
    destruct (get_frequent_users_ok pick db min_groups) as [rows Hrows];
      [lia |].
    exists rows. split; [done |]. intros u c [n Hn].
    apply (elem_of_get_frequent_users _ _ _ _ _ Hrows') in Hn
      as (Hu & _ & Hc & Hmin).
    cbn in *. eexists. apply (elem_of_get_frequent_users _ _ _ _ _ Hrows).
    cbn. repeat split; [done .. | lia].
Qed.

Lemma get_frequent_users_threshold_witness :
  let db := (run_import (RawTables Sample.tables) "1000" empty_db).1 in
  exists rows rows',
    get_frequent_users (fun _ => 0%nat) db 0 = Ok rows
    /\ get_frequent_users (fun _ => 1%nat) db 2 = Ok rows'
    /\ fu_user_id <$> rows ≡ₚ ["A"; "B"; "C"; "D"]%string
    /\ forall (u : string) (c : Z),
         (exists n, mk_frequent_user u n c ∈ rows') ->
         exists n, mk_frequent_user u n c ∈ rows.
Proof.
  intros db.
  destruct (get_frequent_users_threshold (fun _ => 0%nat) (fun _ => 1%nat)
              db 0 2) as [_ Hmono].
  assert (exists rows', get_frequent_users (fun _ => 1%nat) db 2 = Ok rows')
    as [rows' Hrows'] by (eexists; vm_compute; reflexivity).
  destruct (Hmono ltac:(lia) rows' Hrows') as (rows & Hrows & Hsub).
  exists rows, rows'. split; [done |]. split; [done |]. split; [| exact Hsub].
  vm_compute in Hrows. injection Hrows as <-.
  change (["C"; "B"; "A"; "D"]%string ≡ₚ ["A"; "B"; "C"; "D"]%string).
  apply NoDup_Permutation.
  - by apply (bool_decide_unpack _).
  - by apply (bool_decide_unpack _).
  - intros x. rewrite !elem_of_cons, !elem_of_nil. tauto.
Defined.

(** X6. [analyze_intersection] never reports a user who is missing from
    one of the listed groups, whatever the list; and a reported user
    belongs to at least as many groups as the list is long. *)
Theorem analyze_intersection_sound
    (db : analysis_db) (group_ids : list string) (u : string) :
  u ∈ (analyze_intersection db group_ids).*1 ->
  (forall g, g ∈ group_ids -> is_member db g u)
  /\ Z.of_nat (length group_ids) <= group_count db u.
Proof.
  intros (Hnodup & _ & Hall)%analyze_intersection_reported.
  split; [done | by apply group_count_listed].
Qed.

Lemma analyze_intersection_sound_witness :
  let db := (run_import (RawTables Sample.tables) "1000" empty_db).1 in
  is_member db "1" "B" /\ is_member db "2" "B" /\ 2 <= group_count db "B".
Proof.
  intros db.
  destruct (analyze_intersection_sound db ["1"; "2"]%string "B")
    as [Hall Hcount].
  - vm_compute. apply list_elem_of_further, list_elem_of_here.
  - split; [| split; [| exact Hcount]]; apply Hall.
    + apply list_elem_of_here.
    + apply list_elem_of_further, list_elem_of_here.
Defined.

(** X7. The result of [analyze_intersection] does not depend on the
    order in which the group ids are listed. *)
Theorem analyze_intersection_order
    (db : analysis_db) (group_ids group_ids' : list string) :
  group_ids ≡ₚ group_ids' ->
  analyze_intersection db group_ids = analyze_intersection db group_ids'.
Proof.
  intros Hperm. unfold analyze_intersection.
  destruct group_ids as [|g gs], group_ids' as [|g' gs'].
  - done.
  - by apply Permutation_nil_cons in Hperm.
  - symmetry in Hperm. by apply Permutation_nil_cons in Hperm.
  - rewrite (Permutation_length Hperm).
    rewrite (list_filter_iff
               (fun r => Member.group_id r ∈ g :: gs)
               (fun r => Member.group_id r ∈ g' :: gs'));
      [done |].
    intros r. by rewrite Hperm.
Qed.

Lemma analyze_intersection_order_witness :
  let db := (run_import (RawTables Sample.tables) "1000" empty_db).1 in
  analyze_intersection db ["1"; "2"]%string
  = analyze_intersection db ["2"; "1"]%string.
Proof.
  intros db. apply analyze_intersection_order. apply perm_swap.
Defined.

(** X8. A user reported by [analyze_intersection] for a list of two or
    more group ids is reported by [analyze_group_overlap] for each of
    the listed groups, with a count that is at least the length of the
    list. *)
Theorem analyze_intersection_overlap
    (pick : list Member.t -> nat) (db : analysis_db)
    (group_ids : list string) (u g : string) :
  u ∈ (analyze_intersection db group_ids).*1 ->
  (2 <= length group_ids)%nat ->
  g ∈ group_ids ->
  exists x, x ∈ analyze_group_overlap pick db g
            /\ fu_user_id x = u
            /\ Z.of_nat (length group_ids) <= fu_group_count x.
Proof.
  intros (Hnodup & _ & Hall)%analyze_intersection_reported Hlen Hg.
  pose proof (group_count_listed db group_ids u Hnodup Hall) as Hcount.
  exists (mk_frequent_user u
            (bare_user_name pick
               (filter (fun r => Member.user_id r = u) (member_rows db)))
            (group_count db u)).
  split; [| done]. apply elem_of_analyze_group_overlap. cbn.
  repeat split; [by apply Hall | lia].
Qed.

Lemma analyze_intersection_overlap_witness :
  let db := (run_import (RawTables Sample.tables) "1000" empty_db).1 in
  exists x, x ∈ analyze_group_overlap (fun _ => 0%nat) db "1"
            /\ fu_user_id x = "B"%string /\ 2 <= fu_group_count x.
Proof.
  intros db.
  apply (analyze_intersection_overlap (fun _ => 0%nat) db
           ["1"; "2"]%string "B" "1").
  - vm_compute. apply list_elem_of_further, list_elem_of_here.
  - cbn. lia.
  - apply list_elem_of_here.
Defined.

(** X9. The user name that [analyze_intersection] reports for a user
    is NULL or a name stored for that user in one of the listed
    groups. *)
Theorem analyze_intersection_name
    (db : analysis_db) (group_ids : list string) (u : string) (n : sqlval) :
  (u, n) ∈ analyze_intersection db group_ids ->
  n = SqlNull
  \/ exists g nick,
       g ∈ group_ids /\ members db !! (g, u) = Some (n, nick).
Proof.
  unfold analyze_intersection. destruct group_ids as [|g0 gs].
  { by intros ?%elem_of_nil. }
  set (group_ids := g0 :: gs).
  intros ([u' rs] & [= -> ->] & [_ Hgroup]%list_elem_of_filter)%list_elem_of_fmap.
  apply elem_of_group_by_user_id in Hgroup as [_ ->].
  destruct (sql_max_cases
              (map Member.user_name
                 (filter (fun r => Member.user_id r = u')
                    (filter (fun r => Member.group_id r ∈ group_ids)
                            (member_rows db)))))
    as [Hnull | Hin]; [by left | right].
  apply list_elem_of_fmap in Hin as (r & Hn & Hr).
  apply list_elem_of_filter in Hr as [Hu Hr].
  apply list_elem_of_filter in Hr as [Hg Hr].
  exists (Member.group_id r), (Member.user_group_name r). split; [done |].
  apply elem_of_member_rows in Hr. rewrite Hn, <- Hu. exact Hr.
Qed.

Lemma analyze_intersection_name_witness :
  let db := (run_import (RawTables Sample.tables) "1000" empty_db).1 in
  SqlText "B" = SqlNull
  \/ exists g nick,
       g ∈ ["1"; "2"]%string
       /\ members db !! (g, "B"%string) = Some (SqlText "B", nick).
Proof.
  intros db. apply (analyze_intersection_name db ["1"; "2"]%string "B").
  vm_compute. apply list_elem_of_further, list_elem_of_here.
Defined.

(** ** The raw-table ETL *)

Section more_etl.

Lemma bulk_save_objects_succeeds (batch : list Member.t)
    (session : analysis_db) :
  (exists session', bulk_save_objects batch session = Ok session')
  <-> NoDup (member_key <$> batch)
      /\ Forall (fun m => members session !! member_key m = None) batch.
Proof.
  revert session. induction batch as [|m batch IH]; intros session.
  { split; [intros _; split; constructor | intros _; by eexists]. }
  cbn [bulk_save_objects]. rewrite fmap_cons, NoDup_cons, Forall_cons.
  destruct (members session !! member_key m) eqn:Hfree.
  { split; [by intros [s' Hs'] | by intros (_ & Hm & _)]. }
  rewrite IH. setoid_rewrite merge_member_lookup.
  rewrite !Forall_forall. split.
  - intros [Hnodup Hall]. split; [split; [| done] | split; [done |]].
    + intros (m' & Hkey & Hm')%list_elem_of_fmap.
      specialize (Hall m' Hm'). by rewrite decide_True in Hall.
    + intros m' Hm'. specialize (Hall m' Hm'). by case_decide.
  - intros ([Hm Hnodup] & _ & Hall). split; [done |].
    intros m' Hm'. rewrite decide_False; [by apply Hall |].
    intros Hkey. apply Hm, list_elem_of_fmap. by exists m'.
Qed.

(** What a saved batch leaves in an empty table. *)
Lemma bulk_save_objects_list_to_map (batch : list Member.t)
    (session session' : analysis_db) :
  members session = ∅ ->
  bulk_save_objects batch session = Ok session' ->
  members session'
  = list_to_map ((fun m => (member_key m, member_cells m)) <$> batch).
Proof.
  intros Hempty Hsave.
  assert (NoDup (member_key <$> batch)) as Hnodup.
  { apply (bulk_save_objects_succeeds batch session). by eexists. }
  apply bulk_save_objects_ok in Hsave as (_ & _ & Hin & Hout).
  set (kv := fun m => (member_key m, member_cells m)).
  assert (NoDup (kv <$> batch).*1) as Hkeys.
  { by rewrite <- list_fmap_compose. }
  apply map_eq. intros k.
  destruct (list_to_map (kv <$> batch) !! k) as [c|] eqn:Hk.
  - apply elem_of_list_to_map in Hk; [| done].
    apply list_elem_of_fmap in Hk as (m & [= -> ->] & Hm). by apply Hin.
  - destruct (members session' !! k) as [c|] eqn:Hk'; [| done].
    destruct (Hout _ _ Hk') as [Hold | (m & Hm & ->)].
    + by rewrite Hempty in Hold.
    + apply not_elem_of_list_to_map in Hk. destruct Hk.
      rewrite <- list_fmap_compose. apply list_elem_of_fmap. by exists m.
Qed.

(** The key and the name a row of the group table gives rise to. *)
Lemma migrate_groups_app (rows1 rows2 : list (list sqlval))
    (session : analysis_db) :
  Pipeline.migrate_groups (rows1 ++ rows2) session
  = Pipeline.migrate_groups rows2 (Pipeline.migrate_groups rows1 session).
Proof. unfold Pipeline.migrate_groups. apply fold_left_app. Qed.

Lemma migrate_groups_lookup (rows : list (list sqlval))
    (session : analysis_db) (gid : string) :
  groups (Pipeline.migrate_groups rows session) !! gid
  = match
      last (filter (fun row => (5 < length row)%nat
                               /\ py_str (Pipeline.col 0 row) = gid) rows)
    with
    | Some row => Some (SqlText (py_str (Pipeline.col 5 row)))
    | None => groups session !! gid
    end.
Proof.
  revert session. induction rows as [|row rows IH] using rev_ind;
    intros session; [done |].
  rewrite migrate_groups_app, filter_app. cbn [Pipeline.migrate_groups fold_left].
  rewrite filter_cons, filter_nil.
  destruct (5 <? length row)%nat eqn:Hlen.
  - apply Nat.ltb_lt in Hlen. cbn.
    rewrite lookup_insert. case_decide as Hid.
    + rewrite decide_True by done. by rewrite last_snoc.
    + rewrite decide_False by tauto. rewrite app_nil_r. apply IH.
  - apply Nat.ltb_ge in Hlen.
    rewrite decide_False by lia. rewrite app_nil_r. apply IH.
Qed.

End more_etl.

(** X10. The raw-table import completes exactly when both source tables
    exist and no two of the member rows it keeps have the same
    (group id, user id); in every other case it fails and the stored
    rows stay as they were. *)
Theorem clean_data_completes_iff
    (source : source_db) (target_qq_id : string) (db : analysis_db) :
  ((Pipeline.clean_data_to_analysis_db source target_qq_id db).2 = Ok tt
   <-> exists group_rows member_rows,
         group_list source = Some group_rows
         /\ group_member3 source = Some member_rows
         /\ NoDup (member_key <$> spec_etl_members target_qq_id member_rows))
  /\ ((Pipeline.clean_data_to_analysis_db source target_qq_id db).2 <> Ok tt ->
      (Pipeline.clean_data_to_analysis_db source target_qq_id db).1 = db).
Proof.
  unfold Pipeline.clean_data_to_analysis_db.
  rewrite clean_data_transaction_spec.
  destruct (group_list source) as [group_rows|]; cbn;
    [| split; [split; [done | by intros (? & ? & ? & _)] | done]].
  destruct (group_member3 source) as [member_rows|]; cbn;
    [| split; [split; [done | by intros (? & ? & _ & ? & _)] | done]].
  pose proof (bulk_save_objects_succeeds
                (spec_etl_members target_qq_id member_rows)
                (Pipeline.migrate_groups group_rows empty_db)) as Hiff.
  destruct (bulk_save_objects _ _) as [session|e]; cbn.
  - split; [| done]. split; [| done]. intros _.
    exists group_rows, member_rows. split; [done |]. split; [done |].
    apply Hiff. by eexists.
  - split; [| done]. split; [done |].
    intros (group_rows' & member_rows' & [= <-] & [= <-] & Hnodup).
    destruct Hiff as [_ Hiff]. destruct Hiff as [session Hsave]; [| done].
    split; [done |]. apply Forall_forall. intros m _.
    by rewrite migrate_groups_members.
Qed.

Lemma clean_data_completes_iff_witness :
  (Pipeline.clean_data_to_analysis_db Sample.tables "1000" empty_db).2 = Ok tt
  /\ (Pipeline.clean_data_to_analysis_db
        (mk_source (Some []) None) "1000"
        (run_import (RawTables Sample.tables) "1000" empty_db).1).1
     = (run_import (RawTables Sample.tables) "1000" empty_db).1.
Proof.
  split.
  - apply (clean_data_completes_iff Sample.tables "1000" empty_db).
    eexists _, _. split; [reflexivity |]. split; [reflexivity |].
    vm_compute. by apply (bool_decide_unpack _).
  - apply (clean_data_completes_iff (mk_source (Some []) None) "1000").
    vm_compute. discriminate.
Defined.

(** X11. After a raw-table import that completes, the Member rows are
    exactly the rows the ETL keeps, one stored row per kept source row,
    each under its (group id, user id) with its name and nickname
    cells. *)
Theorem clean_data_members
    (source : source_db) (target_qq_id : string) (db db' : analysis_db)
    (member_rows : list (list sqlval)) :
  Pipeline.clean_data_to_analysis_db source target_qq_id db = (db', Ok tt) ->
  group_member3 source = Some member_rows ->
  members db'
  = list_to_map ((fun m => (member_key m, member_cells m))
                   <$> spec_etl_members target_qq_id member_rows)
  /\ size (members db') = length (spec_etl_members target_qq_id member_rows).
Proof.
  unfold Pipeline.clean_data_to_analysis_db.
  rewrite clean_data_transaction_spec. intros Hrun Hrows.
  destruct (group_list source) as [group_rows|]; [| done].
  rewrite Hrows in Hrun. cbn in Hrun.
  destruct (bulk_save_objects _ _) as [session|e] eqn:Hsave; [| done].
  injection Hrun as <-.
  assert (NoDup (member_key <$> spec_etl_members target_qq_id member_rows))
    as Hnodup.
  { eapply bulk_save_objects_succeeds. by eexists. }
  apply bulk_save_objects_list_to_map in Hsave;
    [| by rewrite migrate_groups_members].
  split; [done |]. rewrite Hsave, map_size_list_to_map, length_fmap; [done |].
  by rewrite <- list_fmap_compose.
Qed.

Lemma clean_data_members_witness :
  size (members (run_import (RawTables Sample.tables) "1000" empty_db).1)
  = 6%nat.
Proof.
  destruct (clean_data_members Sample.tables "1000" empty_db
              (run_import (RawTables Sample.tables) "1000" empty_db).1
              (default [] (group_member3 Sample.tables)))
    as [_ Hsize].
  - vm_compute. reflexivity.
  - reflexivity.
  - rewrite Hsize. vm_compute. reflexivity.
Defined.

(** X12. After a raw-table import that completes, a group id has a
    Group row exactly when some row of the group table has more than 5
    columns and that id as the text of its column 0; the stored name is
    the text of column 5 of the last such row. *)
Theorem clean_data_groups
    (source : source_db) (target_qq_id : string) (db db' : analysis_db)
    (group_rows : list (list sqlval)) (gid : string) :
  Pipeline.clean_data_to_analysis_db source target_qq_id db = (db', Ok tt) ->
  group_list source = Some group_rows ->
  groups db' !! gid
  = (fun row => SqlText (py_str (Pipeline.col 5 row)))
      <$> last (filter (fun row => (5 < length row)%nat
                                   /\ py_str (Pipeline.col 0 row) = gid)
                       group_rows).
Proof.
  unfold Pipeline.clean_data_to_analysis_db.
  rewrite clean_data_transaction_spec. intros Hrun Hrows.
  rewrite Hrows in Hrun. cbn in Hrun.
  destruct (group_member3 source) as [member_rows|]; [| done].
  cbn in Hrun.
  destruct (bulk_save_objects _ _) as [session|e] eqn:Hsave; [| done].
  injection Hrun as <-.
  apply bulk_save_objects_ok in Hsave as (-> & _).
  rewrite migrate_groups_lookup. by destruct (last _).
Qed.

Lemma clean_data_groups_witness :
  groups (run_import (RawTables Sample.tables) "1000" empty_db).1
    !! "2"%string
  = Some (SqlText "Beta").
Proof.
  rewrite (clean_data_groups Sample.tables "1000" empty_db
             (run_import (RawTables Sample.tables) "1000" empty_db).1
             (default [] (group_list Sample.tables)) "2").
  - vm_compute. reflexivity.
  - vm_compute. reflexivity.
  - reflexivity.
Defined.

(** X13. The member loop with its final flush has the outcome of one
    bulk save of all kept members in source order, from any pending
    batch: writing in batches of [BATCH_SIZE] changes neither the rows
    stored nor whether the import fails. *)
Theorem migrate_members_batching
    (target_qq_id : string) (member_rows : list (list sqlval))
    (batch : list Member.t) (session : analysis_db) :
  Pipeline.migrate_members target_qq_id member_rows batch session
    ≫= (fun '(batch, session) =>
           match batch with
           | [] => Ok session
           | _ :: _ => bulk_save_objects batch session
           end)
  = bulk_save_objects (batch ++ spec_etl_members target_qq_id member_rows)
      session.
Proof. apply migrate_members_flush. Qed.

(** ** The structured import *)

Section more_json.

Context (qq_id : string).

Lemma bind_param_ok (v : json) :
  (exists x, bind_param v = Ok x) <-> bindable v.
Proof.
  destruct v as [| b | z | s | l | d]; cbn;
    try (split; [done | by eexists]); try (split; [by intros [? ?] | done]).
  destruct (- 2 ^ 63 <=? z) eqn:Hlo, (z <? 2 ^ 63) eqn:Hhi; cbn;
    try apply Z.leb_le in Hlo; try apply Z.leb_gt in Hlo;
    try apply Z.ltb_lt in Hhi; try apply Z.ltb_ge in Hhi;
    (split; [intros [x Hx]; try done; lia | intros ?; try lia; by eexists]).
Qed.

Lemma get_dict (v : json) (key : string) (default x : json) :
  get v key default = Ok x
  <-> exists d, v = JDict d /\ x = field d key default.
Proof.
  destruct v; cbn; try (split; [done | by intros (? & ? & _)]).
  split; [intros [= <-]; by eexists | by intros (? & [= <-] & ->)].
Qed.

Lemma import_members_succeeds (gid : string) (ms : list (string * json))
    (session : analysis_db) :
  (exists session', import_members qq_id gid ms session = Ok session')
  <-> Forall (accepted_member qq_id) ms.
Proof.
  revert session. induction ms as [|[uid u_info] ms IH]; intros session.
  { split; [constructor | by eexists]. }
  cbn [import_members]. rewrite Forall_cons. unfold accepted_member at 1.
  cbn [fst snd].
  destruct (String.eqb uid qq_id) eqn:Hself.
  { apply String.eqb_eq in Hself. rewrite IH. tauto. }
  apply String.eqb_neq in Hself. split.
  - intros [session' Hrun].
    destruct u_info as [| | | | | d]; try done. cbn in Hrun.
    bind_ok Hrun. split.
    + right. exists d. split; [done |].
      split; apply bind_param_ok; by eexists.
    + eapply IH. by eexists.
  - intros [[Heq | (d & -> & [n Hn]%bind_param_ok & [k Hk]%bind_param_ok)] Hms];
      [done |].
    cbn. unfold field in Hn, Hk. rewrite Hn, Hk. cbn. by apply IH.
Qed.

Lemma import_groups_succeeds (data : list (string * json))
    (session : analysis_db) :
  (exists session', import_groups qq_id data session = Ok session')
  <-> Forall (accepted_group qq_id) data.
Proof.
  revert session. induction data as [|[gid g_info] data IH]; intros session.
  { split; [constructor | by eexists]. }
  cbn [import_groups]. rewrite Forall_cons. unfold accepted_group at 1.
  cbn [fst snd]. split.
  - intros [session' Hrun].
    destruct g_info as [| | | | | d]; try done. cbn in Hrun.
    bind_ok Hrun.
    destruct (match assoc "members" d with Some x => x | None => JDict [] end)
      as [| | | | | ms] eqn:Hms; try done.
    injection E0 as <-. split.
    + exists d, ms. split; [done |]. split; [| split; [done |]].
      * apply bind_param_ok. by eexists.
      * eapply import_members_succeeds. by eexists.
    + eapply IH. by eexists.
  - intros [(d & ms & -> & [n Hn]%bind_param_ok & Hfield & Hms) Hdata].
    cbn. unfold field in Hn, Hfield. rewrite Hn. cbn. rewrite Hfield. cbn.
    eapply import_members_succeeds in Hms as [s1 Hs1]. rewrite Hs1. cbn.
    by apply IH.
Qed.

Lemma import_members_owned (gid : string) (ms : list (string * json))
    (session session' : analysis_db) :
  import_members qq_id gid ms session = Ok session' ->
  is_Some (groups session !! gid) ->
  owned session ->
  groups session' = groups session /\ owned session'.
Proof.
  revert session. induction ms as [|[uid u_info] ms IH];
    intros session Hrun Hgid Hs.
  - by injection Hrun as <-.
  - cbn [import_members] in Hrun.
    destruct (String.eqb uid qq_id); [by eapply IH |].
    bind_ok Hrun. eapply IH in Hrun as [-> Hs']; [done | done |].
    intros g u cells. rewrite merge_member_lookup. case_decide as Hkey.
    + intros _. by injection Hkey as <- _.
    + apply Hs.
Qed.

Lemma import_groups_owned (data : list (string * json))
    (session session' : analysis_db) :
  import_groups qq_id data session = Ok session' ->
  owned session -> owned session'.
Proof.
  revert session. induction data as [|[gid g_info] data IH];
    intros session Hrun Hs.
  - by injection Hrun as <-.
  - cbn [import_groups] in Hrun. bind_ok Hrun.
    eapply IH; [done |].
    eapply import_members_owned; [done | |].
    + cbn. rewrite lookup_insert_eq. by eexists.
    + intros g u cells Hm. cbn in *.
      destruct (Hs g u cells Hm) as [n Hn].
      rewrite lookup_insert. case_decide; by eexists.
Qed.

End more_json.

(** X14. The structured import completes exactly for the payloads of
    this shape: an object whose values are objects with a bindable
    [group_name] (or none) and an object [members] (or none) whose
    entries, the account's own entry apart, are objects with bindable
    [user_name] and [user_group_name] (or none). The account's own
    entry is never read. In every other case the import fails and the
    stored rows stay as they were. *)
Theorem process_json_completes_iff
    (data : json) (qq_id : string) (db : analysis_db) :
  ((process_json data qq_id db).2 = Ok tt <-> accepted_payload qq_id data)
  /\ ((process_json data qq_id db).2 <> Ok tt ->
      (process_json data qq_id db).1 = db).
Proof.
  unfold process_json, process_json_transaction, accepted_payload.
  rewrite delete_all.
  destruct data as [| | | | | gs]; cbn;
    try (split; [split; [done | by intros (? & ? & _)] | done]).
  pose proof (import_groups_succeeds qq_id gs empty_db) as Hiff.
  destruct (import_groups qq_id gs empty_db) as [session|e]; cbn.
  - split; [| done]. split; [| done]. intros _. exists gs. split; [done |].
    apply Hiff. by eexists.
  - split; [| done]. split; [done |]. intros (gs' & [= <-] & Hgs).
    apply Hiff in Hgs as [session Hs]. done.
Qed.

Lemma process_json_completes_iff_witness :
  (process_json Sample.payload "1000" empty_db).2 = Ok tt
  /\ (process_json (JList []) "1000"
        (run_import (RawTables Sample.tables) "1000" empty_db).1).1
     = (run_import (RawTables Sample.tables) "1000" empty_db).1.
Proof.
  split.
  - apply (process_json_completes_iff Sample.payload "1000" empty_db).
    eexists. split; [reflexivity |].
    apply Forall_cons. split; [| apply Forall_nil_2].
    eexists _, _. split; [reflexivity |]. split; [exact I |].
    split; [reflexivity |].
    apply Forall_cons. split; [by left |].
    apply Forall_cons. split; [| apply Forall_nil_2].
    right. eexists. split; [reflexivity |]. split; exact I.
  - apply (process_json_completes_iff (JList []) "1000").
    vm_compute. discriminate.
Defined.

(** X15. After a structured import that completes, every Member row
    belongs to a group that has a Group row. *)
Theorem process_json_owned
    (data : json) (qq_id : string) (db db' : analysis_db) :
  process_json data qq_id db = (db', Ok tt) -> owned db'.
Proof.
  unfold process_json, process_json_transaction. rewrite delete_all.
  destruct data as [| | | | | gs]; try done. cbn.
  destruct (import_groups qq_id gs empty_db) as [session|e] eqn:Hrun;
    [| done].
  intros [= <-]. eapply import_groups_owned; [done |].
  intros g u cells Hm. done.
Qed.

Lemma process_json_owned_witness :
  owned (process_json Sample.payload "1000" empty_db).1.
Proof.
  apply (process_json_owned Sample.payload "1000" empty_db).
  vm_compute. reflexivity.
Defined.

Section json_content.

Context (qq_id : string).

(** What the member loop of one group changes. *)
Lemma import_members_lookup (gid : string) (ms : list (string * json))
    (session session' : analysis_db) :
  import_members qq_id gid ms session = Ok session' ->
  groups session' = groups session
  /\ (forall g u,
        g <> gid \/ u ∉ ms.*1 \/ u = qq_id ->
        members session' !! (g, u) = members session !! (g, u))
  /\ (NoDup ms.*1 ->
      forall uid ud,
        (uid, ud) ∈ ms -> uid <> qq_id ->
        exists d n k,
          ud = JDict d
          /\ bind_param (field d "user_name" (JStr "")) = Ok n
          /\ bind_param (field d "user_group_name" (JStr "")) = Ok k
          /\ members session' !! (gid, uid)
             = Some (text_affinity n, text_affinity k)).
Proof.
  revert session. induction ms as [|[uid0 ud0] ms IH]; intros session Hrun.
  { injection Hrun as <-. split; [done |]. split; [done |].
    intros _ uid ud Hin. by apply elem_of_nil in Hin. }
  cbn [import_members] in Hrun.
  destruct (String.eqb uid0 qq_id) eqn:Hself.
  - apply String.eqb_eq in Hself. subst uid0.
    destruct (IH _ Hrun) as (Hg & Hkeep & Hin).
    split; [done |]. split.
    + intros g u Hcase. apply Hkeep.
      destruct Hcase as [? | [Hu | ?]]; [tauto | | tauto].
      right. left. intros Hu'. apply Hu. cbn. by constructor.
    + cbn. intros [_ Hnodup]%NoDup_cons uid ud Hmem Hne.
      apply elem_of_cons in Hmem as [[= -> ->] | Hmem]; [done |].
      by apply Hin.
  - apply String.eqb_neq in Hself.
    destruct ud0 as [| | | | | d0]; try done. cbn in Hrun. bind_ok Hrun.
    destruct (IH _ Hrun) as (Hg & Hkeep & Hin).
    split; [done |]. split.
    + intros g u Hcase. rewrite Hkeep.
      * rewrite merge_member_lookup. apply decide_False. cbn.
        intros [= <- <-]. destruct Hcase as [? | [Hu | ?]]; [done | | done].
        apply Hu. cbn. apply list_elem_of_here.
      * destruct Hcase as [? | [Hu | ?]]; [tauto | | tauto].
        right. left. intros Hu'. apply Hu. cbn. by constructor.
    + cbn. intros [Hfresh Hnodup]%NoDup_cons uid ud Hmem Hne.
      apply elem_of_cons in Hmem as [[= -> ->] | Hmem]; [| by apply Hin].
      eexists d0, _, _. split; [done |]. split; [exact E |].
      split; [exact E0 |].
      rewrite Hkeep by tauto. rewrite merge_member_lookup.
      by rewrite decide_True.
Qed.

(** What the loop over the groups changes. *)
Lemma import_groups_lookup (gs : list (string * json))
    (session session' : analysis_db) :
  import_groups qq_id gs session = Ok session' ->
  (forall g,
      g ∉ gs.*1 ->
      groups session' !! g = groups session !! g
      /\ forall u, members session' !! (g, u) = members session !! (g, u))
  /\ (NoDup gs.*1 ->
      forall gid gi,
        (gid, gi) ∈ gs ->
        exists d gn ms,
          gi = JDict d
          /\ bind_param (field d "group_name" (JStr "Unknown")) = Ok gn
          /\ field d "members" (JDict []) = JDict ms
          /\ groups session' !! gid = Some (text_affinity gn)
          /\ (forall u,
                u ∉ ms.*1 \/ u = qq_id ->
                members session' !! (gid, u) = members session !! (gid, u))
          /\ (NoDup ms.*1 ->
              forall uid ud,
                (uid, ud) ∈ ms -> uid <> qq_id ->
                exists du n k,
                  ud = JDict du
                  /\ bind_param (field du "user_name" (JStr "")) = Ok n
                  /\ bind_param (field du "user_group_name" (JStr "")) = Ok k
                  /\ members session' !! (gid, uid)
                     = Some (text_affinity n, text_affinity k))).
Proof.
  revert session. induction gs as [|[gid0 gi0] gs IH]; intros session Hrun.
  { injection Hrun as <-. split; [done |].
    intros _ gid gi Hin. by apply elem_of_nil in Hin. }
  cbn [import_groups] in Hrun.
  destruct gi0 as [| | | | | d0]; try done. cbn in Hrun. bind_ok Hrun.
  destruct (match assoc "members" d0 with Some x => x | None => JDict [] end)
    as [| | | | | ms0] eqn:Hms0; try done.
  injection E0 as <-.
  destruct (import_members_lookup _ _ _ _ E1) as (Hg1 & Hkeep1 & Hin1).
  destruct (IH _ Hrun) as (Hout & Hin).
  split.
  - intros g Hg. cbn in Hg. apply not_elem_of_cons in Hg as [Hne Hg].
    destruct (Hout g Hg) as [Hgroups Hmembers]. split.
    + rewrite Hgroups, Hg1. cbn. by rewrite lookup_insert_ne.
    + intros u. rewrite Hmembers. by rewrite Hkeep1 by tauto.
  - cbn. intros [Hfresh Hnodup]%NoDup_cons gid gi Hmem.
    apply elem_of_cons in Hmem as [[= -> ->] | Hmem].
    + destruct (Hout gid0 Hfresh) as [Hgroups Hmembers].
      exists d0, a, ms0. split; [done |]. split; [exact E |].
      split; [exact Hms0 |]. split; [| split].
      * rewrite Hgroups, Hg1. cbn. by rewrite lookup_insert_eq.
      * intros u Hu. rewrite Hmembers. by rewrite Hkeep1 by tauto.
      * intros Hnd uid ud Hud Hne.
        destruct (Hin1 Hnd uid ud Hud Hne) as (du & n & k & ? & ? & ? & Hcell).
        exists du, n, k. by rewrite Hmembers.
    + destruct (Hin Hnodup gid gi Hmem)
        as (d & gn & ms & -> & Hgn & Hms & Hgroup & Hkeep & Hcells).
      exists d, gn, ms. split; [done |]. split; [done |]. split; [done |].
      split; [done |]. split; [| done].
      intros u Hu. rewrite Hkeep by done. apply Hkeep1. left.
      intros ->. apply Hfresh, list_elem_of_fmap. by exists (gid0, JDict d).
Qed.

End json_content.

(** X16. After a structured import that completes, for a payload
    object with distinct keys: every key has a Group row with the
    bound [group_name] (["Unknown"] when absent) and no other group has
    one; for a group whose member object has distinct keys, every
    member but the account itself has a Member row with the bound
    [user_name] and [user_group_name] (the empty string when absent),
    and no other user has a row in that group. *)
Theorem process_json_content
    (gs : list (string * json)) (qq_id : string) (db db' : analysis_db) :
  process_json (JDict gs) qq_id db = (db', Ok tt) ->
  NoDup gs.*1 ->
  (forall g, g ∉ gs.*1 ->
     groups db' !! g = None /\ forall u, members db' !! (g, u) = None)
  /\ (forall gid gi,
        (gid, gi) ∈ gs ->
        exists d gn ms,
          gi = JDict d
          /\ bind_param (field d "group_name" (JStr "Unknown")) = Ok gn
          /\ field d "members" (JDict []) = JDict ms
          /\ groups db' !! gid = Some (text_affinity gn)
          /\ (forall u, u ∉ ms.*1 \/ u = qq_id ->
                members db' !! (gid, u) = None)
          /\ (NoDup ms.*1 ->
              forall uid ud,
                (uid, ud) ∈ ms -> uid <> qq_id ->
                exists du n k,
                  ud = JDict du
                  /\ bind_param (field du "user_name" (JStr "")) = Ok n
                  /\ bind_param (field du "user_group_name" (JStr "")) = Ok k
                  /\ members db' !! (gid, uid)
                     = Some (text_affinity n, text_affinity k))).
Proof.
  unfold process_json, process_json_transaction. rewrite delete_all. cbn.
  destruct (import_groups qq_id gs empty_db) as [session|e] eqn:Hrun;
    [| done].
  intros [= <-] Hnodup.
  destruct (import_groups_lookup qq_id _ _ _ Hrun) as [Hout Hin].
  split.
  - intros g Hg. destruct (Hout g Hg) as [Hgroups Hmembers].
    split; [by rewrite Hgroups | intros u; by rewrite Hmembers].
  - intros gid gi Hmem.
    destruct (Hin Hnodup gid gi Hmem)
      as (d & gn & ms & -> & Hgn & Hms & Hgroup & Hkeep & Hcells).
    exists d, gn, ms. do 4 (split; [done |]). split; [| done].
    intros u Hu. by rewrite Hkeep.
Qed.

Lemma process_json_content_witness :
  groups (process_json Sample.payload "1000" empty_db).1 !! "G9"%string
  = Some (SqlText "X")
  /\ members (process_json Sample.payload "1000" empty_db).1
       !! ("G9"%string, "1000"%string) = None.
Proof.
  destruct (process_json_content
              [("G9"%string,
                JDict [("group_name"%string, JStr "X");
                       ("members"%string,
                        JDict [("1000"%string,
                                JDict [("user_name"%string, JStr "Me")]);
                               ("U1"%string,
                                JDict [("user_name"%string, JStr "Bob")])])])]
              "1000" empty_db
              (process_json Sample.payload "1000" empty_db).1)
    as [_ Hin].
  - vm_compute. reflexivity.
  - apply NoDup_singleton.
  - edestruct Hin as (d & gn & ms & Hd & Hgn & Hms & Hgroup & Hkeep & _);
      [apply list_elem_of_here |].
    injection Hd as <-. cbn in Hgn, Hms.
    injection Hgn as <-. injection Hms as <-.
    split; [exact Hgroup |]. apply Hkeep. by right.
Defined.

(** ** Decryption *)

Section more_decrypt.

Context (env : environment).

(** The candidate loop stops at the first candidate that is not
    skipped; it has probed the candidates up to that one, in order. *)
Lemma probe_candidates_outcome (cs : list string) (w : world) :
  let '(w', r) := Pipeline.probe_candidates env cs w in
  match r with
  | Ok None =>
      Forall (fun c => skipped (subprocess_run env [c] (".quit" +:+ Py.nl))) cs
      /\ spawned w' = spawned w ++ (probe_of <$> cs)
  | Ok (Some cmd) =>
      exists before after,
        cs = before ++ cmd :: after
        /\ Forall (fun c => skipped (subprocess_run env [c] (".quit" +:+ Py.nl)))
                  before
        /\ subprocess_run env [cmd] (".quit" +:+ Py.nl) = Ok tt
        /\ spawned w' = spawned w ++ (probe_of <$> before ++ [cmd])
  | Raise e =>
      exists before cmd after,
        cs = before ++ cmd :: after
        /\ Forall (fun c => skipped (subprocess_run env [c] (".quit" +:+ Py.nl)))
                  before
        /\ subprocess_run env [cmd] (".quit" +:+ Py.nl) = Raise e
        /\ aborts_lookup e
        /\ spawned w' = spawned w ++ (probe_of <$> before ++ [cmd])
  end.
Proof.
  revert w. induction cs as [|c cs IH]; intros w.
  { cbn. split; [constructor | by rewrite app_nil_r]. }
  cbn [Pipeline.probe_candidates].
  destruct (subprocess_run env [c] (".quit" +:+ Py.nl)) as [[]|e] eqn:Hrun.
  - exists [], cs. cbn. by rewrite Hrun.
  - case_bool_decide as Hcls.
    + specialize (IH (spawn [c] (".quit" +:+ Py.nl) w)).
      destruct (Pipeline.probe_candidates env cs _) as [w' [[cmd|]|e']].
      * destruct IH as (before & after & -> & Hskip & Hok & Hsp).
        exists (c :: before), after. split; [done |]. split.
        { constructor; [by exists e | done]. }
        split; [done |]. rewrite Hsp. cbn. by rewrite <- app_assoc.
      * destruct IH as [Hskip Hsp]. split.
        { constructor; [by exists e | done]. }
        rewrite Hsp. cbn. by rewrite <- app_assoc.
      * destruct IH as (before & cmd & after & -> & Hskip & Hraise & Hab & Hsp).
        exists (c :: before), cmd, after. split; [done |]. split.
        { constructor; [by exists e | done]. }
        split; [done |]. split; [done |].
        rewrite Hsp. cbn. by rewrite <- app_assoc.
    + exists [], c, cs. cbn. rewrite Hrun.
      split; [done |]. split; [constructor |]. split; [done |].
      split; [| done]. unfold aborts_lookup. tauto.
Qed.

Lemma print_spawned (line : string) (w : world) :
  spawned (print line w) = spawned w.
Proof. reflexivity. Qed.

Lemma decrypt_with_library_spawned (enc dec key : string) (w : world) :
  spawned (Pipeline.decrypt_with_library env enc dec key w).1 = spawned w.
Proof.
  unfold Pipeline.decrypt_with_library.
  destruct (sqlcipher env); [| done].
  destruct (sqlcipher_connect_plain env dec) as [[]|e]; cbn;
    [| by rewrite remove_if_exists_spawned].
  destruct (sqlcipher_export env enc dec key) as [[]|e']; cbn;
    by rewrite remove_if_exists_spawned.
Qed.

Lemma find_probes (w : world) :
  let '(w', r) := Pipeline._find_sqlcipher_binary env w in
  match r with
  | Ok None =>
      not_located env
      /\ spawned w' = spawned w ++ (probe_of <$> Pipeline.candidates env)
  | Ok (Some cmd) =>
      exists before after,
        Pipeline.candidates env = before ++ cmd :: after
        /\ Forall (fun c => skipped (subprocess_run env [c] (".quit" +:+ Py.nl)))
                  before
        /\ subprocess_run env [cmd] (".quit" +:+ Py.nl) = Ok tt
        /\ spawned w' = spawned w ++ (probe_of <$> before ++ [cmd])
  | Raise e =>
      exists before cmd after,
        Pipeline.candidates env = before ++ cmd :: after
        /\ Forall (fun c => skipped (subprocess_run env [c] (".quit" +:+ Py.nl)))
                  before
        /\ subprocess_run env [cmd] (".quit" +:+ Py.nl) = Raise e
        /\ aborts_lookup e
        /\ spawned w' = spawned w ++ (probe_of <$> before ++ [cmd])
  end.
Proof.
  unfold Pipeline._find_sqlcipher_binary, not_located.
  apply probe_candidates_outcome.
Qed.

Lemma decrypt_with_cli_success (enc dec key : string) (w : world) :
  (Pipeline.decrypt_with_cli env enc dec key w).2 = Ok tt ->
  exists cmd,
    cmd ∈ Pipeline.candidates env
    /\ subprocess_run env [cmd] (".quit" +:+ Py.nl) = Ok tt
    /\ subprocess_run env [cmd; enc]
         (Pipeline.sql_script key (Py.replace_char "\"%char "/"%char dec))
       = Ok tt.
Proof.
  unfold Pipeline.decrypt_with_cli.
  pose proof (find_probes w) as Hfind.
  destruct (Pipeline._find_sqlcipher_binary env w) as [w1 [[cmd|]|e]];
    [| done | done].
  destruct Hfind as (before & after & Hcs & _ & Hprobe & _).
  set (script := Pipeline.sql_script _ _).
  destruct (subprocess_run env [cmd; enc] script) as [[]|e] eqn:Hrun;
    [| by case_bool_decide].
  intros _. exists cmd. split; [| done].
  rewrite Hcs. apply elem_of_app. right. apply list_elem_of_here.
Qed.


End more_decrypt.

(** X17. [_find_sqlcipher_binary] answers with the first candidate, in
    the order of the list, whose probe runs without error: the
    candidates before it were probed and skipped, the ones after it are
    not started. It answers [None] when every candidate is skipped, and
    it raises the first probe error that is neither
    [FileNotFoundError] nor [CalledProcessError], without probing
    further. *)
Theorem find_sqlcipher_binary_first (env : environment) (w : world) :
  let '(w', r) := Pipeline._find_sqlcipher_binary env w in
  match r with
  | Ok None =>
      not_located env
      /\ spawned w' = spawned w ++ (probe_of <$> Pipeline.candidates env)
  | Ok (Some cmd) =>
      exists before after,
        Pipeline.candidates env = before ++ cmd :: after
        /\ Forall (fun c => skipped (subprocess_run env [c] (".quit" +:+ Py.nl)))
                  before
        /\ subprocess_run env [cmd] (".quit" +:+ Py.nl) = Ok tt
        /\ spawned w' = spawned w ++ (probe_of <$> before ++ [cmd])
  | Raise e =>
      exists before cmd after,
        Pipeline.candidates env = before ++ cmd :: after
        /\ Forall (fun c => skipped (subprocess_run env [c] (".quit" +:+ Py.nl)))
                  before
        /\ subprocess_run env [cmd] (".quit" +:+ Py.nl) = Raise e
        /\ aborts_lookup e
        /\ spawned w' = spawned w ++ (probe_of <$> before ++ [cmd])
  end.
Proof.
  unfold Pipeline._find_sqlcipher_binary, not_located.
  apply probe_candidates_outcome.
Qed.

(** X18. When the library binding is present it decides the call in two
    cases without any child process being started: an error of its
    first [connect] on the output path is raised as it is, with no
    fallback to the shell, and a completed export makes the call
    succeed. *)
Theorem decrypt_db_library_decides
    (env : environment) (enc dec key : string) (w : world) :
  sqlcipher env = true ->
  spawned (Pipeline.decrypt_with_library env enc dec key w).1 = spawned w
  /\ (forall e, sqlcipher_connect_plain env dec = Raise e ->
        (Pipeline.decrypt_db env enc dec key w).2 = Raise e
        /\ spawned (Pipeline.decrypt_db env enc dec key w).1 = spawned w)
  /\ (sqlcipher_connect_plain env dec = Ok tt ->
      sqlcipher_export env enc dec key = Ok tt ->
      (Pipeline.decrypt_db env enc dec key w).2 = Ok tt
      /\ spawned (Pipeline.decrypt_db env enc dec key w).1 = spawned w).
Proof.
  intros Hlib. split; [apply decrypt_with_library_spawned |].
  unfold Pipeline.decrypt_db, Pipeline.decrypt_with_library. rewrite Hlib.
  split.
  - intros e ->. cbn. by rewrite remove_if_exists_spawned.
  - intros -> ->. cbn. by rewrite remove_if_exists_spawned.
Qed.

Lemma decrypt_db_library_decides_witness :
  (Pipeline.decrypt_db
     (mk_environment "linux" true
        (fun _ => Raise (mk_exn OperationalError None
                           "unable to open database file"))
        (fun _ _ _ => Ok tt) (fun _ _ => Ok tt))
     "enc.db" "dec.db" "k" Sample.fresh_world).2
  = Raise (mk_exn OperationalError None "unable to open database file")
  /\ (Pipeline.decrypt_db
        (mk_environment "linux" true (fun _ => Ok tt)
           (fun _ _ _ => Ok tt) (fun _ _ => Ok tt))
        "enc.db" "dec.db" "k" Sample.fresh_world).2
     = Ok tt.
Proof.
  split.
  - edestruct decrypt_db_library_decides as (_ & Hconnect & _);
      [| apply Hconnect]; reflexivity.
  - edestruct decrypt_db_library_decides as (_ & _ & Hexport);
      [| apply Hexport]; reflexivity.
Defined.

(** X19. Every child process that [decrypt_db] starts is a probe of a
    candidate, taken in the order of the candidate list without gaps,
    followed by at most one run of the export script, with the
    candidate probed last: no probe and no run is repeated. *)
Theorem decrypt_db_processes
    (env : environment) (enc dec key : string) (w : world) :
  exists probed run,
    spawned (Pipeline.decrypt_db env enc dec key w).1
    = spawned w ++ (probe_of <$> probed) ++ run
    /\ probed `prefix_of` Pipeline.candidates env
    /\ (run = []
        \/ exists cmd,
             last probed = Some cmd
             /\ run = [([cmd; enc],
                        Pipeline.sql_script key
                          (Py.replace_char "\"%char "/"%char dec))]).
Proof.
  unfold Pipeline.decrypt_db.
  pose proof (decrypt_with_library_spawned env enc dec key w) as Hlib.
  destruct (Pipeline.decrypt_with_library env enc dec key w) as [w1 [r|]].
  { exists [], []. cbn in *. rewrite Hlib, app_nil_r.
    split; [done |]. split; [apply prefix_nil | by left]. }
  cbn in Hlib. unfold Pipeline.decrypt_with_cli.
  pose proof (find_probes env w1) as Hfind.
  destruct (Pipeline._find_sqlcipher_binary env w1) as [w2 [[cmd|]|e]].
  - destruct Hfind as (before & after & Hcs & _ & _ & Hsp).
    exists (before ++ [cmd]).
    set (script := Pipeline.sql_script _ _).
    exists [([cmd; enc], script)]. split; [| split].
    + destruct (subprocess_run env [cmd; enc] script) as [[]|e];
        [| case_bool_decide]; cbn; rewrite remove_if_exists_spawned; cbn;
        by rewrite Hsp, Hlib, <- app_assoc.
    + rewrite Hcs. exists after. by rewrite <- app_assoc.
    + right. exists cmd. by rewrite last_snoc.
  - destruct Hfind as [_ Hsp]. exists (Pipeline.candidates env), [].
    cbn. rewrite Hsp, Hlib, app_nil_r. split; [done |]. by split; [| left].
  - destruct Hfind as (before & cmd & after & Hcs & _ & _ & _ & Hsp).
    exists (before ++ [cmd]), []. cbn. rewrite Hsp, Hlib, app_nil_r.
    split; [done |]. split; [| by left].
    rewrite Hcs. exists after. by rewrite <- app_assoc.
Qed.

(** X20. [decrypt_db] reports success only when a backend has run the
    export: the library binding completed it, or a candidate shell was
    located and ran the script with exit status zero. *)
Theorem decrypt_db_success
    (env : environment) (enc dec key : string) (w : world) :
  (Pipeline.decrypt_db env enc dec key w).2 = Ok tt ->
  (sqlcipher env = true
   /\ sqlcipher_connect_plain env dec = Ok tt
   /\ sqlcipher_export env enc dec key = Ok tt)
  \/ exists cmd,
       cmd ∈ Pipeline.candidates env
       /\ subprocess_run env [cmd] (".quit" +:+ Py.nl) = Ok tt
       /\ subprocess_run env [cmd; enc]
            (Pipeline.sql_script key (Py.replace_char "\"%char "/"%char dec))
          = Ok tt.
Proof.
  unfold Pipeline.decrypt_db, Pipeline.decrypt_with_library.
  destruct (sqlcipher env) eqn:Hlib.
  - destruct (sqlcipher_connect_plain env dec) as [[]|e]; cbn; [| done].
    destruct (sqlcipher_export env enc dec key) as [[]|e]; cbn.
    + intros _. by left.
    + intros Hcli. right. by eapply decrypt_with_cli_success.
  - intros Hcli. right. by eapply decrypt_with_cli_success.
Qed.

Lemma decrypt_db_success_witness :
  let env :=
    mk_environment "linux" false (fun _ => Ok tt)
      (fun _ _ _ => Ok tt) (fun _ _ => Ok tt) in
  (sqlcipher env = true
   /\ sqlcipher_connect_plain env "dec.db" = Ok tt
   /\ sqlcipher_export env "enc.db" "dec.db" "k" = Ok tt)
  \/ exists cmd,
       cmd ∈ Pipeline.candidates env
       /\ subprocess_run env [cmd] (".quit" +:+ Py.nl) = Ok tt
       /\ subprocess_run env [cmd; "enc.db"%string]
            (Pipeline.sql_script "k"
               (Py.replace_char "\"%char "/"%char "dec.db"))
          = Ok tt.
Proof.
  intros env.
  apply (decrypt_db_success env "enc.db" "dec.db" "k" Sample.fresh_world).
  reflexivity.
Defined.



(** ** The escaped text of bytes *)

Section escaping.

Lemma unescape_repr_byte (q : Z) (c : byte) (rest : string) :
  q = 39 \/ q = 34 ->
  unescape (Py.repr_byte q c +:+ rest) = c :: unescape rest.
Proof. intros [-> | ->]; destruct c; reflexivity. Qed.

Lemma repr_quote_cases (bs : list byte) :
  Py.repr_quote bs = 39 \/ Py.repr_quote bs = 34.
Proof. unfold Py.repr_quote. destruct (_ && _); tauto. Qed.

Lemma unescape_fold (q : Z) (bs : list byte) :
  q = 39 \/ q = 34 ->
  unescape (fold_right (fun c acc => Py.repr_byte q c +:+ acc) EmptyString bs)
  = bs.
Proof.
  intros Hq. induction bs as [|c bs IH]; [done |].
  cbn [fold_right]. by rewrite unescape_repr_byte, IH.
Qed.

Lemma unescape_repr_body (bs : list byte) : unescape (Py.repr_body bs) = bs.
Proof. apply unescape_fold, repr_quote_cases. Qed.

Lemma repr_byte_shape (q : Z) (c : byte) :
  q = 39 \/ q = 34 ->
  Forall printable (list_ascii_of_string (Py.repr_byte q c))
  /\ (1 <= String.length (Py.repr_byte q c) <= 4)%nat.
Proof.
  unfold printable.
  intros [-> | ->]; destruct c;
    (split; [apply (bool_decide_unpack _); vm_compute; exact I
            | vm_compute; lia]).
Qed.

End escaping.

(** X22. The escaped text that [get_key] takes from [str(seed_bytes)]
    can be read back: unescaping it gives the bytes again, so two
    different byte strings never have the same escaped text. *)
Theorem repr_body_round_trip (a b : list byte) :
  unescape (Py.repr_body a) = a
  /\ unescape (Py.slice_from_to_back 2 1 (Py.str_bytes a)) = a
  /\ (a <> b -> Py.repr_body a <> Py.repr_body b).
Proof.
  split; [apply unescape_repr_body |]. split.
  - rewrite str_bytes_slice. apply unescape_repr_body.
  - intros Hne Heq. apply Hne.
    by rewrite <- (unescape_repr_body a), Heq, unescape_repr_body.
Qed.

Lemma repr_body_round_trip_witness :
  unescape "\x00\'\tA" = [x00; x27; x09; x41]
  /\ Py.repr_body [x27] <> Py.repr_body [x27; x22].
Proof.
  destruct (repr_body_round_trip [x27] [x27; x22]) as (_ & _ & Hdiff).
  split; [reflexivity | apply Hdiff; discriminate].
Defined.

(** X23. The escaped text of bytes consists of printable ASCII
    characters only and has between one and four characters per byte;
    the seed string of a raw file of at least 54 bytes therefore has
    between 8 and 32 characters. *)
Theorem repr_body_shape (bs data : list byte) :
  Forall printable (list_ascii_of_string (Py.repr_body bs))
  /\ (length bs <= String.length (Py.repr_body bs) <= 4 * length bs)%nat
  /\ ((54 <= length data)%nat ->
      (8 <= String.length (spec_seed_string data) <= 32)%nat).
Proof.
  assert (forall q l,
             q = 39 \/ q = 34 ->
             Forall printable
               (list_ascii_of_string
                  (fold_right (fun c acc => Py.repr_byte q c +:+ acc)
                     EmptyString l))
             /\ (length l
                 <= String.length
                      (fold_right (fun c acc => Py.repr_byte q c +:+ acc)
                         EmptyString l)
                 <= 4 * length l)%nat) as Hfold.
  { intros q l Hq. induction l as [|c l [IHp IHl]]; [by split; [constructor |] |].
    cbn [fold_right length].
    destruct (repr_byte_shape q c Hq) as [Hp Hl].
    rewrite list_ascii_app, string_length_app. split; [| lia].
    by apply Forall_app. }
  pose proof (fun l => Hfold _ l (repr_quote_cases l)) as Hbody.
  split; [apply Hbody |]. split; [apply Hbody |].
  intros Hlen. unfold spec_seed_string.
  destruct (Hbody (spec_seed_bytes data)) as [_ Hl].
  assert (length (spec_seed_bytes data) = 8%nat) as Heq.
  { unfold spec_seed_bytes. rewrite length_take, length_drop. lia. }
  unfold Py.repr_body in *. lia.
Qed.

Lemma repr_body_shape_witness :
  (8 <= String.length (spec_seed_string Sample.raw_file) <= 32)%nat.
Proof.
  destruct (repr_body_shape [] Sample.raw_file) as (_ & _ & Hseed).
  apply Hseed. vm_compute. lia.
Defined.

(** X24. [remove_header] writes the file that the destination path
    names and no other: every path that names another file reads as
    before. When the source and destination paths name different files,
    the key derived from the source is the same before and after the
    header is stripped; when they name one file, through the same or
    through different path texts, the source itself is overwritten
    with its bytes from offset 1024 on. *)
Theorem remove_header_frame
    (h h' : host_files) (source_path dest_path nt_uid : string) :
  remove_header_at h source_path dest_path = Ok h' ->
  (forall path,
      realpath h path <> realpath h dest_path ->
      read_file h' path = read_file h path)
  /\ (realpath h source_path <> realpath h dest_path ->
      get_key_at h' nt_uid source_path = get_key_at h nt_uid source_path)
  /\ (realpath h source_path = realpath h dest_path ->
      exists data,
        read_file h source_path = Some data
        /\ read_file h' source_path = Some (drop 1024 data)).
Proof.
  unfold remove_header_at, Pipeline.remove_header, open_rb, read_file.
  destruct (store h !! realpath h source_path) as [data|] eqn:Hsrc; [| done].
  cbn. intros [= <-]. unfold write_wb. cbn. split; [| split].
  - intros path Hne. by rewrite lookup_insert_ne.
  - intros Hne. unfold get_key_at, Pipeline.get_key, open_rb. cbn.
    by rewrite lookup_insert_ne.
  - intros Heq. exists data. split; [done |].
    rewrite Heq. apply lookup_insert_eq.
Qed.

Lemma remove_header_frame_witness :
  let h :=
    mk_host_files
      (fun path => if String.eqb path "./group_info.db"
                   then "group_info.db"%string else path)
      Sample.disk in
  (exists h',
      remove_header_at h "group_info.db" "cleaned.db" = Ok h'
      /\ get_key_at h' "u_abc" "group_info.db"
         = Ok "d8dbee672d07f8d706c50f9cb297a7dc"%string)
  /\ (exists h',
        remove_header_at h "group_info.db" "./group_info.db" = Ok h'
        /\ read_file h' "group_info.db" = Some []).
Proof.
  intros h. split.
  - eexists. split; [reflexivity |].
    destruct (remove_header_frame h _ "group_info.db" "cleaned.db" "u_abc"
                eq_refl) as (_ & Hkey & _).
    rewrite Hkey by (vm_compute; discriminate). vm_compute. reflexivity.
  - eexists. split; [reflexivity |].
    destruct (remove_header_frame h _ "group_info.db" "./group_info.db"
                "u_abc" eq_refl) as (_ & _ & Hsame).
    destruct (Hsame eq_refl) as (data & Hdata & ->).
    vm_compute in Hdata. injection Hdata as <-. vm_compute. reflexivity.
Defined.

(** ** Scanning the uid directory *)

Section splitting.

Lemma str_app_cons (c : ascii) (a b : string) :
  String c a +:+ b = String c (a +:+ b).
Proof. reflexivity. Qed.

Lemma str_app_nil_l (b : string) : EmptyString +:+ b = b.
Proof. reflexivity. Qed.

Lemma str_app_nil_r (s : string) : s +:+ EmptyString = s.
Proof.
  induction s as [|c s IH]; [done |]. by rewrite str_app_cons, IH.
Qed.

Lemma str_app_assoc (a b c : string) : (a +:+ b) +:+ c = a +:+ (b +:+ c).
Proof.
  induction a as [|x a IH]; [done |]. by rewrite !str_app_cons, IH.
Qed.

Lemma str_drop_app (a b : string) : str_drop (String.length a) (a +:+ b) = b.
Proof.
  induction a as [|x a IH]; [by destruct b |]. by rewrite str_app_cons.
Qed.

Lemma starts_with_app (sep s : string) :
  starts_with sep s = true <-> exists rest, s = sep +:+ rest.
Proof.
  revert s. induction sep as [|a sep IH]; intros s; cbn.
  { split; [by exists s | done]. }
  destruct s as [|b s]; [split; [done | by intros [? ?]] |].
  rewrite andb_true_iff, IH. split.
  - intros [->%Ascii.eqb_eq [rest ->]]. by exists rest.
  - intros [rest [= -> ->]]. split; [apply Ascii.eqb_refl | by exists rest].
Qed.

Lemma split_go_nonempty (sep : string) (k : nat) (cur s : string) :
  split_go sep k cur s <> [].
Proof.
  revert k cur. induction s as [|c s IH]; intros k cur; [done |].
  cbn [split_go]. destruct k; [| apply IH].
  destruct (starts_with sep (String c s)); [done | apply IH].
Qed.

Lemma concat_cons (sep x : string) (l : list string) :
  l <> [] -> String.concat sep (x :: l) = x +:+ sep +:+ String.concat sep l.
Proof. by destruct l. Qed.

(** Joining the parts with the separator gives the text back. *)
Lemma split_go_concat (sep : string) (s : string) (k : nat) (cur : string) :
  sep <> EmptyString ->
  String.concat sep (split_go sep k cur s) = cur +:+ str_drop k s.
Proof.
  intros Hsep. revert k cur. induction s as [|c s IH]; intros k cur.
  { cbn [split_go String.concat]. destruct k; by rewrite str_app_nil_r. }
  cbn [split_go]. destruct k as [|k]; [| apply IH].
  destruct (starts_with sep (String c s)) eqn:Hstart.
  - rewrite concat_cons by apply split_go_nonempty. rewrite IH.
    apply starts_with_app in Hstart as [rest Hrest].
    destruct sep as [|a sep']; [done |].
    rewrite str_app_cons in Hrest. injection Hrest as -> ->.
    replace (String.length (String a sep') - 1)%nat
      with (String.length sep') by (cbn [String.length]; lia).
    by rewrite str_drop_app, str_app_nil_l, str_app_cons.
  - rewrite IH. cbn [str_drop].
    by rewrite str_app_assoc, str_app_cons, str_app_nil_l.
Qed.

Lemma split_concat (s sep : string) :
  sep <> EmptyString -> String.concat sep (split s sep) = s.
Proof. intros Hsep. unfold split. by rewrite split_go_concat. Qed.

Lemma split_go_no_hash (cur t : string) :
  no_hash t -> split_go "###" 0 cur t = [cur +:+ t].
Proof.
  revert cur. induction t as [|c t IH]; intros cur Ht.
  { cbn [split_go]. by rewrite str_app_nil_r. }
  apply Forall_cons in Ht as [Hc Ht]. cbn [split_go starts_with].
  replace (Ascii.eqb "#" c) with false
    by (symmetry; apply Ascii.eqb_neq; congruence).
  cbn [andb]. rewrite IH by done.
  by rewrite str_app_assoc, str_app_cons, str_app_nil_l.
Qed.

Lemma split_go_one_separator (cur qq nt : string) :
  no_hash qq -> no_hash nt ->
  split_go "###" 0 cur (qq +:+ "###" +:+ nt) = [cur +:+ qq; nt].
Proof.
  intros Hqq Hnt. revert cur. induction qq as [|c qq IH]; intros cur.
  - rewrite str_app_nil_l, str_app_nil_r, !str_app_cons, str_app_nil_l.
    cbn [split_go starts_with Ascii.eqb Bool.eqb andb String.length Nat.sub].
    by rewrite split_go_no_hash, str_app_nil_l.
  - apply Forall_cons in Hqq as [Hc Hqq].
    rewrite str_app_cons. cbn [split_go starts_with].
    replace (Ascii.eqb "#" c) with false
      by (symmetry; apply Ascii.eqb_neq; congruence).
    cbn [andb]. rewrite IH by done.
    by rewrite str_app_assoc, str_app_cons, str_app_nil_l.
Qed.

Lemma substring_skip_prefix (a s : string) (m : nat) :
  String.substring (String.length a) m (a +:+ s) = String.substring 0 m s.
Proof.
  induction a as [|x a IH]; [done |].
  rewrite str_app_cons. cbn [String.length String.substring]. apply IH.
Qed.

Lemma contains_separator (qq nt : string) :
  contains "###" (qq +:+ "###" +:+ nt) = true.
Proof.
  unfold contains.
  destruct (String.index 0 "###" (qq +:+ "###" +:+ nt)) eqn:Hindex; [done |].
  exfalso.
  eapply (String.index_correct3 0 (String.length qq)); [done | done | lia |].
  rewrite substring_skip_prefix.
  apply (substring_whole_prefix "###" nt).
Qed.

Lemma elem_of_scan_filenames (filenames : list string) (qq nt : string) :
  (qq, nt) ∈ scan_filenames filenames
  <-> exists filename,
        filename ∈ filenames
        /\ contains "###" filename = true
        /\ split filename "###" = [qq; nt].
Proof.
  unfold scan_filenames.
  induction filenames as [|f fs IH] using rev_ind.
  { cbn. split; [by intros ?%elem_of_nil | intros (? & ?%elem_of_nil & _); done]. }
  rewrite fold_left_app. cbn [fold_left].
  setoid_rewrite elem_of_app. setoid_rewrite list_elem_of_singleton.
  destruct (contains "###" f) eqn:Hc.
  - destruct (split f "###") as [|p1 [|p2 [|p3 ps]]] eqn:Hs.
    + rewrite IH. split; [intros (x & ? & ?); exists x; tauto |].
      intros (x & [? | ->] & ? & Hx); [by exists x | congruence].
    + rewrite IH. split; [intros (x & ? & ?); exists x; tauto |].
      intros (x & [? | ->] & ? & Hx); [by exists x | congruence].
    + rewrite elem_of_app, IH, list_elem_of_singleton. split.
      * intros [(x & ? & ?) | [= -> ->]]; [exists x; tauto | by exists f; auto].
      * intros (x & [? | ->] & ? & Hx); [left; by exists x | right; congruence].
    + rewrite IH. split; [intros (x & ? & ?); exists x; tauto |].
      intros (x & [? | ->] & ? & Hx); [by exists x | congruence].
  - rewrite IH. split; [intros (x & ? & ?); exists x; tauto |].
    intros (x & [? | ->] & ? & Hx); [by exists x | congruence].
Qed.

End splitting.

(** X25. [scan_termux_uids] reports a pair (qq, nt_uid) only for a file
    name of the listing that reads qq, "###", nt_uid, and it reports
    the pair of every listed name of this form whose two parts hold no
    [#]. The answer is marked available exactly when the directory
    exists and can be listed. *)
Theorem scan_termux_uids_spec
    (listing : option (result (list string))) (r : uid_scan) :
  scan_termux_uids listing = Ok r ->
  (available r = true <-> exists filenames, listing = Some (Ok filenames))
  /\ (forall pairs qq nt,
        uids r = Some pairs ->
        (qq, nt) ∈ pairs ->
        exists filenames,
          listing = Some (Ok filenames)
          /\ qq +:+ "###" +:+ nt ∈ filenames)
  /\ (forall filenames qq nt,
        listing = Some (Ok filenames) ->
        no_hash qq -> no_hash nt ->
        qq +:+ "###" +:+ nt ∈ filenames ->
        exists pairs, uids r = Some pairs /\ (qq, nt) ∈ pairs).
Proof.
  unfold scan_termux_uids. destruct listing as [[filenames|e]|].
  - intros [= <-]. cbn. split; [split; [by eexists | done] |]. split.
    + intros pairs qq nt [= <-] (f & Hf & _ & Hsplit)%elem_of_scan_filenames.
      exists filenames. split; [done |].
      pose proof (split_concat f "###" ltac:(done)) as Hjoin.
      rewrite Hsplit in Hjoin. cbn in Hjoin. by rewrite Hjoin.
    + intros ? qq nt [= <-] Hqq Hnt Hin. eexists. split; [done |].
      apply elem_of_scan_filenames.
      exists (qq +:+ "###" +:+ nt). split; [done |].
      split; [apply contains_separator |].
      unfold split. by rewrite split_go_one_separator.
  - case_bool_decide; [| done]. intros [= <-]. cbn.
    split; [split; [done | by intros [? ?]] |]. split; [done | done].
  - intros [= <-]. cbn.
    split; [split; [done | by intros [? ?]] |].
    split; [by intros ? ? ? [= <-] ?%elem_of_nil | done].
Qed.

Lemma scan_termux_uids_spec_witness :
  let listing :=
    Some (Ok ["1000###u_abc"; "notes.txt"; "a###b###c"]%string) in
  let r := mk_uid_scan true None (Some [("1000", "u_abc")]%string) in
  scan_termux_uids listing = Ok r
  /\ exists pairs, uids r = Some pairs /\ ("1000", "u_abc")%string ∈ pairs.
Proof.
  intros listing r.
  assert (scan_termux_uids listing = Ok r) as Hscan
    by (vm_compute; reflexivity).
  split; [exact Hscan |].
  destruct (scan_termux_uids_spec listing r Hscan) as (_ & _ & Hconv).
  apply (Hconv _ "1000"%string "u_abc"%string eq_refl).
  - unfold no_hash. apply (bool_decide_unpack _). vm_compute. exact I.
  - unfold no_hash. apply (bool_decide_unpack _). vm_compute. exact I.
  - apply list_elem_of_here.
Defined.

(** ** The error answer of the pipeline routes *)


